(** * Timeout detection and recovery (TDR) watchdog of the amdxdna driver

    Shallow embedding of [src/driver/amdxdna/amdxdna_tdr.c]: the periodic
    liveness scan [amdxdna_tdr_work], the timer callback
    [amdxdna_tdr_timer] and the life cycle functions [amdxdna_tdr_start]
    and [amdxdna_tdr_stop], followed by the properties the specification
    states about them. *)

From Stdlib Require Import ZArith NArith Lia.
From stdpp Require Import base list numbers strings.

Local Open Scope Z_scope.

(** ** Machine integers *)

Module CInt.

(** The scan counts with C [int]s.  The kernel is built with
    [-fno-strict-overflow], so [++] on an [int] wraps around in two's
    complement. *)
Definition INT_BITS : Z := 32.

Definition wrap (z : Z) : Z :=
  (z + 2 ^ (INT_BITS - 1)) `mod` 2 ^ INT_BITS - 2 ^ (INT_BITS - 1).

(** [x++] *)
Definition incr (x : Z) : Z := wrap (x + 1).

(** [uint] module parameters are 32 bits wide. *)
Definition UINT_MAX : Z := 2 ^ 32 - 1.

End CInt.

(** ** Data model *)

(** The fields of [struct amdxdna_hwctx] that the watchdog reads: the
    three [u64] counters are loaded once per visit and only compared. *)
Record amdxdna_hwctx := Hwctx {
  name : string;
  submitted : N;
  completed : N;
  tdr_last_completed : N
}.

(** [struct amdxdna_client]: [hwctx_idr] holds the hardware contexts of the
    client; the list keeps them in ascending id order, the order in which
    [idr_for_each_entry_continue] started at [next = 0] visits them. *)
Record amdxdna_client := Client {
  hwctx_idr : list amdxdna_hwctx
}.

(** A function pointer of the device's ops table. *)
Inductive fn_ptr := NULL | Fn.

(** [struct timer_list] and [struct work_struct], as far as the watchdog
    depends on them: whether the timer is armed and whether the work item
    sits in the work queue. *)
Record timer_list := Timer { timer_pending : bool }.
Record work_struct := Work { work_pending : bool }.

(** Modelled from the spec: the declaration of [struct amdxdna_tdr]
    (amdxdna_tdr.h) is not among the sources, so the width of
    [tdr_counter] is unknown; the specification calls it a monotonic
    diagnostic counter, incremented once per triggered recovery, and it is
    modelled as an unbounded natural number. *)
Record amdxdna_tdr := Tdr {
  timer : timer_list;
  tdr_work : work_struct;
  tdr_counter : N;
  started : bool
}.

(** [struct amdxdna_dev]: the client list (guarded by [dev_lock]), the
    [recover] entry of [dev_info->ops] and the embedded watchdog. *)
Record amdxdna_dev := Dev {
  client_list : list amdxdna_client;
  recover : fn_ptr;
  tdr : amdxdna_tdr
}.

Definition set_tdr_last_completed (v : N) (hwctx : amdxdna_hwctx) : amdxdna_hwctx :=
  {| name := name hwctx; submitted := submitted hwctx;
     completed := completed hwctx; tdr_last_completed := v |}.

Definition set_client_list (cl : list amdxdna_client) (xdna : amdxdna_dev) : amdxdna_dev :=
  {| client_list := cl; recover := recover xdna; tdr := tdr xdna |}.

Definition set_tdr (t : amdxdna_tdr) (xdna : amdxdna_dev) : amdxdna_dev :=
  {| client_list := client_list xdna; recover := recover xdna; tdr := t |}.

Definition set_tdr_counter (c : N) (t : amdxdna_tdr) : amdxdna_tdr :=
  {| timer := timer t; tdr_work := tdr_work t; tdr_counter := c; started := started t |}.

(** What leaves the watchdog: the warning printed with the new counter
    value and the call of the device's recover operation.  The per-context
    debug messages are not recorded. *)
Inductive event :=
| EvWarn (count : N)
| EvRecover.

#[global] Instance event_eq_dec : EqDecision event.
Proof. solve_decision. Defined.

(** ** The liveness scan: [amdxdna_tdr_work] *)

(** The scan loads the three counters of a context once per visit, and the
    walk itself is protected by [dev_lock] and the clients' SRCU sections.
    The client list handed to the model stands for the contexts with the
    counter values as the scan loads them. *)

(** The local variables of [amdxdna_tdr_work] that survive the loops. *)
Record tdr_locals := Locals {
  active : bool;
  stop_cnt : Z;
  ctx_cnt : Z
}.

Definition locals_init : tdr_locals :=
  {| active := false; stop_cnt := 0; ctx_cnt := 0 |}.

(** The inner loop, over the contexts of one client.  It returns the
    contexts as the loop leaves them and the locals; [break] is the branch
    that does not recurse. *)
Fixpoint scan_hwctx (l : list amdxdna_hwctx) (st : tdr_locals)
  : list amdxdna_hwctx * tdr_locals :=
  match l with
  | [] => ([], st)
  | hwctx :: rest =>
      let completed_ := completed hwctx in
      let last := tdr_last_completed hwctx in
      let submitted_ := submitted hwctx in
      let st := {| active := active st; stop_cnt := stop_cnt st;
                   ctx_cnt := CInt.incr (ctx_cnt st) |} in
      if (submitted_ =? completed_)%N then
        let st := {| active := active st; stop_cnt := CInt.incr (stop_cnt st);
                     ctx_cnt := ctx_cnt st |} in
        let '(rest', st') := scan_hwctx rest st in
        (hwctx :: rest', st')
      else if negb (last =? completed_)%N then
        (set_tdr_last_completed completed_ hwctx :: rest,
         {| active := true; stop_cnt := stop_cnt st; ctx_cnt := ctx_cnt st |})
      else
        let '(rest', st') := scan_hwctx rest st in
        (hwctx :: rest', st')
  end.

(** The outer loop, over the clients of the device, left as soon as the
    inner loop has set [active]. *)
Fixpoint scan_clients (cl : list amdxdna_client) (st : tdr_locals)
  : list amdxdna_client * tdr_locals :=
  match cl with
  | [] => ([], st)
  | client :: rest =>
      let '(idr', st) := scan_hwctx (hwctx_idr client) st in
      let client' := {| hwctx_idr := idr' |} in
      if active st then (client' :: rest, st)
      else
        let '(rest', st') := scan_clients rest st in
        (client' :: rest', st')
  end.

(** How a run of the work function ends: it returns, or it calls through
    a NULL [recover] pointer.  Both carry the device as the run left it
    and what the run emitted. *)
Inductive work_outcome :=
| Returned (xdna : amdxdna_dev) (log : list event)
| NullCall (xdna : amdxdna_dev) (log : list event).

(** The recover operation belongs to the device layer.  The run records
    the call; what the operation does to the contexts is a change made by
    the environment after the run. *)
Definition amdxdna_tdr_work (xdna : amdxdna_dev) : work_outcome :=
  let '(cl, st) := scan_clients (client_list xdna) locals_init in
  let xdna := set_client_list cl xdna in
  if negb (ctx_cnt st =? stop_cnt st) && negb (active st) then
    let count := (tdr_counter (tdr xdna) + 1)%N in
    let xdna := set_tdr (set_tdr_counter count (tdr xdna)) xdna in
    match recover xdna with
    | NULL => NullCall xdna [EvWarn count]
    | Fn => Returned xdna [EvWarn count; EvRecover]
    end
  else Returned xdna [].

Definition outcome_dev (o : work_outcome) : amdxdna_dev :=
  match o with Returned x _ | NullCall x _ => x end.

Definition outcome_log (o : work_outcome) : list event :=
  match o with Returned _ l | NullCall _ l => l end.

(** Number of calls of the recover operation in a log. *)
Definition recover_calls (log : list event) : nat :=
  length (filter (λ e, e = EvRecover) log).

(** ** Vocabulary of the specification *)

(** All contexts of the device in the order of the scan: client by client,
    each client's contexts by ascending id. *)
Definition all_hwctx (cl : list amdxdna_client) : list amdxdna_hwctx :=
  concat (map hwctx_idr cl).

(** How many contexts each client holds. *)
Definition shape (cl : list amdxdna_client) : list nat :=
  map (λ c, length (hwctx_idr c)) cl.

(** A context with outstanding work. *)
Definition busy (hwctx : amdxdna_hwctx) : bool :=
  negb (submitted hwctx =? completed hwctx)%N.

(** Progress as the scan sees it: outstanding work, and [completed] differs
    from the snapshot [tdr_last_completed]. *)
Definition progressing (hwctx : amdxdna_hwctx) : bool :=
  busy hwctx && negb (tdr_last_completed hwctx =? completed hwctx)%N.

(** A context with outstanding work whose [completed] equals the snapshot. *)
Definition frozen (hwctx : amdxdna_hwctx) : bool :=
  busy hwctx && (tdr_last_completed hwctx =? completed hwctx)%N.

(** The locals with which the loops of a run over [xdna] end. *)
Definition scan_locals (xdna : amdxdna_dev) : tdr_locals :=
  snd (scan_clients (client_list xdna) locals_init).

(** ** The scheduler: timer callback, start and stop *)

(** The kernel objects behave as the kernel documents them.  [queue_work]
    puts a work item on the queue unless it is already there; a worker
    thread later takes it off and calls its function.  [add_timer] and
    [mod_timer] arm a timer; when it expires the kernel calls its callback
    once.  [timer_delete_sync] disarms a timer and waits until its callback
    is not running on any CPU; it knows nothing of work items.  Time itself
    (the expiry [jiffies + TDR_TIMEOUT_JIFF]) is not modelled: an armed
    timer may expire at any moment. *)

(** [amdxdna_tdr_timer], the timer callback: queue the work item, arm the
    timer again. *)
Definition amdxdna_tdr_timer (t : amdxdna_tdr) : amdxdna_tdr :=
  let t := {| timer := timer t; tdr_work := {| work_pending := true |};
              tdr_counter := tdr_counter t; started := started t |} in
  {| timer := {| timer_pending := true |}; tdr_work := tdr_work t;
     tdr_counter := tdr_counter t; started := started t |}.

(** [amdxdna_tdr_start], reading the module parameter [timeout_in_sec].
    [timer_setup] and [INIT_WORK] initialise both objects, [add_timer] arms
    the timer.  (The driver starts the watchdog once, when the device is
    probed; initialising a timer or a work item that is in use is outside
    what the kernel allows and outside this model.) *)
Definition amdxdna_tdr_start (timeout_in_sec : Z) (xdna : amdxdna_dev) : amdxdna_dev :=
  match recover xdna with
  | NULL => xdna
  | Fn =>
      if timeout_in_sec =? 0 then xdna
      else
        set_tdr {| timer := {| timer_pending := true |};
                   tdr_work := {| work_pending := false |};
                   tdr_counter := tdr_counter (tdr xdna);
                   started := true |} xdna
  end.

(** [amdxdna_tdr_stop]: nothing on a watchdog that is not started, else
    [timer_delete_sync].  The function touches neither [tdr_work] nor
    [started]. *)
Definition amdxdna_tdr_stop (t : amdxdna_tdr) : amdxdna_tdr :=
  if negb (started t) then t
  else
    {| timer := {| timer_pending := false |}; tdr_work := tdr_work t;
       tdr_counter := tdr_counter t; started := started t |}.

(** ** The watchdog in its environment *)

(** The device together with the module parameter, everything the runs of
    the work function have emitted, the number of such runs, and whether
    one of them called through a NULL pointer. *)
Record sys := Sys {
  xdna_dev : amdxdna_dev;
  timeout_in_sec : Z;
  klog : list event;
  scans : nat;
  oops : bool
}.

(** What can happen next.  The driver calls start or stop; the kernel runs
    the callback of the armed timer; a worker of [system_long_wq] takes the
    queued work item and runs it; somebody writes the module parameter
    (mode 0644); the rest of the driver and the device change the contexts
    (submission, completion, opening and closing of contexts, the effect
    of a recovery). *)
Inductive label :=
| CallStart
| CallStop
| TimerExpires
| WorkerRuns
| SetParam (v : Z)
| Environment (f : list amdxdna_client → list amdxdna_client).

Definition set_dev (d : amdxdna_dev) (s : sys) : sys :=
  {| xdna_dev := d; timeout_in_sec := timeout_in_sec s; klog := klog s;
     scans := scans s; oops := oops s |}.

(** A worker clears the pending bit of the work item before it calls the
    item's function. *)
Definition take_work (d : amdxdna_dev) : amdxdna_dev :=
  set_tdr {| timer := timer (tdr d); tdr_work := {| work_pending := false |};
             tdr_counter := tdr_counter (tdr d); started := started (tdr d) |} d.

(** One step; [None] when the step cannot happen in this state: a timer
    that is not armed does not expire, a work item that is not queued is
    not run, and the parameter holds a [uint]. *)
Definition step (l : label) (s : sys) : option sys :=
  let d := xdna_dev s in
  match l with
  | CallStart => Some (set_dev (amdxdna_tdr_start (timeout_in_sec s) d) s)
  | CallStop => Some (set_dev (set_tdr (amdxdna_tdr_stop (tdr d)) d) s)
  | TimerExpires =>
      if timer_pending (timer (tdr d))
      then Some (set_dev (set_tdr (amdxdna_tdr_timer (tdr d)) d) s)
      else None
  | WorkerRuns =>
      if work_pending (tdr_work (tdr d)) then
        let o := amdxdna_tdr_work (take_work d) in
        Some {| xdna_dev := outcome_dev o; timeout_in_sec := timeout_in_sec s;
                klog := klog s ++ outcome_log o; scans := S (scans s);
                oops := match o with NullCall _ _ => true | Returned _ _ => oops s end |}
      else None
  | SetParam v =>
      if bool_decide (0 ≤ v ≤ CInt.UINT_MAX)
      then Some {| xdna_dev := d; timeout_in_sec := v; klog := klog s;
                   scans := scans s; oops := oops s |}
      else None
  | Environment f => Some (set_dev (set_client_list (f (client_list d)) d) s)
  end.

(** A schedule, run from left to right. *)
Fixpoint exec (ls : list label) (s : sys) : option sys :=
  match ls with
  | [] => Some s
  | l :: ls => match step l s with
               | Some s' => exec ls s'
               | None => None
               end
  end.

(** The devices on which the work function ran, in order. *)
Fixpoint scan_inputs (ls : list label) (s : sys) : list amdxdna_dev :=
  match ls with
  | [] => []
  | l :: ls =>
      match step l s with
      | Some s' =>
          match l with
          | WorkerRuns => take_work (xdna_dev s) :: scan_inputs ls s'
          | _ => scan_inputs ls s'
          end
      | None => []
      end
  end.

(** A device right after allocation ([kzalloc]): the watchdog is all
    zeroes; default parameter. *)
Definition tdr_zero : amdxdna_tdr :=
  {| timer := {| timer_pending := false |}; tdr_work := {| work_pending := false |};
     tdr_counter := 0; started := false |}.

Definition sys_init (cl : list amdxdna_client) (rec : fn_ptr) (timeout : Z) : sys :=
  {| xdna_dev := {| client_list := cl; recover := rec; tdr := tdr_zero |};
     timeout_in_sec := timeout; klog := []; scans := 0; oops := false |}.

(** Neither the timer nor the work item can make the work function run. *)
Definition quiescent (t : amdxdna_tdr) : bool :=
  negb (timer_pending (timer t)) && negb (work_pending (tdr_work t)).

(** The contexts that a scan visits: all of them up to and including the
    first one that shows progress. *)
Fixpoint visited (l : list amdxdna_hwctx) : list amdxdna_hwctx :=
  match l with
  | [] => []
  | hwctx :: rest => if progressing hwctx then [hwctx] else hwctx :: visited rest
  end.

(** The contexts after a scan: the snapshot of the first one that shows
    progress is refreshed. *)
Fixpoint refresh_first (l : list amdxdna_hwctx) : list amdxdna_hwctx :=
  match l with
  | [] => []
  | hwctx :: rest =>
      if progressing hwctx
      then set_tdr_last_completed (completed hwctx) hwctx :: rest
      else hwctx :: refresh_first rest
  end.

Definition idle_count (l : list amdxdna_hwctx) : nat :=
  length (filter (λ h, busy h = false) l).

Definition busy_count (l : list amdxdna_hwctx) : nat :=
  length (filter (λ h, busy h = true) l).

(** The locals with which the inner loop leaves a list of contexts. *)
Definition locals_after (l : list amdxdna_hwctx) (st : tdr_locals) : tdr_locals :=
  {| active := active st || existsb progressing l;
     stop_cnt := Nat.iter (idle_count (visited l)) CInt.incr (stop_cnt st);
     ctx_cnt := Nat.iter (length (visited l)) CInt.incr (ctx_cnt st) |}.

(** The stuck verdict of the specification: some context has outstanding
    work and no context shows progress. *)
Definition stuck (l : list amdxdna_hwctx) : Prop :=
  (∃ h, h ∈ l ∧ busy h = true) ∧ (∀ h, h ∈ l → progressing h = false).

(** The configuration in which [amdxdna_tdr_start] declines to start the
    watchdog: no recover operation, or a zero [timeout_in_sec]. *)
Definition disabled (s : sys) : Prop :=
  recover (xdna_dev s) = NULL ∨ timeout_in_sec s = 0.

(** Nobody writes a value other than 0 to the module parameter. *)
Definition param_stays_zero (ls : list label) : Prop :=
  Forall (λ l, ∀ v, l = SetParam v → v = 0) ls.

(** ** Sample devices *)

(** The scenario of the specification: one idle context and two contexts
    that stand at 7 of 10 with snapshot 7, spread over two clients. *)
Definition three_ctx_clients : list amdxdna_client :=
  [ {| hwctx_idr := [Hwctx "ctx0" 5 5 0] |};
    {| hwctx_idr := [Hwctx "ctx1" 10 7 7; Hwctx "ctx2" 10 7 7] |} ].

Definition three_ctx_dev : amdxdna_dev :=
  {| client_list := three_ctx_clients; recover := Fn; tdr := tdr_zero |}.

(** Two idle contexts; the second was seen at 7 by an earlier scan. *)
Definition idle_clients : list amdxdna_client :=
  [ {| hwctx_idr := [Hwctx "ctx0" 5 5 0] |};
    {| hwctx_idr := [Hwctx "ctx1" 7 7 7] |} ].

(** The same contexts after one more job went to the second one and did
    not complete. *)
Definition hung_clients : list amdxdna_client :=
  [ {| hwctx_idr := [Hwctx "ctx0" 5 5 0] |};
    {| hwctx_idr := [Hwctx "ctx1" 8 7 7] |} ].

(** The same contexts after one more job went to each of them and neither
    job completed: the first context has never been seen with outstanding
    work, its snapshot is still 0. *)
Definition hung_stale_clients : list amdxdna_client :=
  [ {| hwctx_idr := [Hwctx "ctx0" 6 5 0] |};
    {| hwctx_idr := [Hwctx "ctx1" 8 7 7] |} ].

(** A context that moves, followed by one that does not. *)
Definition moving_then_frozen : list amdxdna_client :=
  [ {| hwctx_idr := [Hwctx "A" 4 2 1; Hwctx "B" 10 7 7] |} ].

Definition idle_dev : amdxdna_dev :=
  {| client_list := idle_clients; recover := Fn; tdr := tdr_zero |}.

Definition moving_dev : amdxdna_dev :=
  {| client_list := moving_then_frozen; recover := Fn; tdr := tdr_zero |}.

(** A run with two timer periods; between them a job comes and goes. *)
Definition two_periods : list label :=
  [ CallStart; TimerExpires; WorkerRuns;
    Environment (λ _, [ {| hwctx_idr := [Hwctx "ctx0" 6 6 0] |};
                        {| hwctx_idr := [Hwctx "ctx1" 7 7 7] |} ]);
    TimerExpires; WorkerRuns ].

(** ** Further vocabulary: accounting over runs *)

(** Number of contexts that show progress. *)
Definition progress_count (l : list amdxdna_hwctx) : nat :=
  length (filter (λ h, progressing h = true) l).

(** The test that guards the recovery in [amdxdna_tdr_work]:
    [ctx_cnt != stop_cnt && !active]. *)
Definition needs_recovery (d : amdxdna_dev) : bool :=
  negb (ctx_cnt (scan_locals d) =? stop_cnt (scan_locals d))
  && negb (active (scan_locals d)).

(** What [n] recoveries in a row leave in the log when the counter stood
    at [c] before. *)
Definition recovery_events (c : N) (n : nat) : list event :=
  flat_map (λ k, [EvWarn (c + N.of_nat k); EvRecover]) (seq 1 n).

(** [n] runs of the work function back to back, nothing else happening in
    between: the device after the last run and what the runs emitted. *)
Fixpoint rescan (n : nat) (xdna : amdxdna_dev) : amdxdna_dev * list event :=
  match n with
  | O => (xdna, [])
  | S n =>
      let o := amdxdna_tdr_work xdna in
      let '(xdna', log) := rescan n (outcome_dev o) in
      (xdna', outcome_log o ++ log)
  end.

Definition is_timer_expiry (l : label) : bool :=
  match l with TimerExpires => true | _ => false end.

Definition is_call_start (l : label) : bool :=
  match l with CallStart => true | _ => false end.

Definition is_call_stop (l : label) : bool :=
  match l with CallStop => true | _ => false end.

(** How often the timer expires in a schedule. *)
Definition timer_expiries (ls : list label) : nat :=
  length (filter (λ l, is_timer_expiry l = true) ls).

(** Runs of the work function that the work queue owes: one if the item
    is queued. *)
Definition pending_runs (t : amdxdna_tdr) : nat :=
  if work_pending (tdr_work t) then 1%nat else 0%nat.

(** ** The period of the timer *)

(** The argument that [TDR_TIMEOUT_JIFF] hands to [msecs_to_jiffies]:
    [timeout_in_sec * 1000], a product of a [uint] and an [int], taken in
    [unsigned int]. *)
Definition tdr_timeout_msecs (timeout_in_sec : Z) : Z :=
  (timeout_in_sec * 1000) `mod` 2 ^ 32.

(** ** The result check of the ELF flavoured I/O test *)

(** [elf_io_test_bo_set::verify_result] maps the output buffer, reads the
    golden data from [ofm.bin] into a buffer of the same size, compares the
    two byte by byte, and throws a [runtime_error] that reports the number
    of mismatches when there is one.  The loop: *)
Fixpoint count_mismatch (i : nat) (fuel : nat) (ofm_p ofm_golden_p : list Byte.byte)
    (count : N) : N :=
  match fuel with
  | O => count
  | S fuel =>
      let count :=
        if Byte.eqb (nth i ofm_p Byte.x00) (nth i ofm_golden_p Byte.x00)
        then count else (count + 1)%N in
      count_mismatch (S i) fuel ofm_p ofm_golden_p count
  end.

(** How the check ends.  It returns; or it throws
    "<count> bytes result mismatch!!!"; or it calls [map] through the null
    [tbo] that [alloc_bo] leaves in a buffer of size 0; or the exception of
    a failing [read_data_from_bin] passes through it. *)
Inductive verify_outcome :=
| VerifyPassed
| VerifyThrows (count : N)
| VerifyNullDeref
| VerifyReadThrows.

(** [tbo] is [m_bo_array[IO_TEST_BO_OUTPUT].tbo]: [None] for the null
    pointer, else the bytes that [map] gives, [size] of them.  The check
    calls [map] and [size] on it first.  [read_data_from_bin] is not among
    the sources; [golden] is what its call comes to: [None] when it throws,
    else the contents of [buf_ofm_golden], a vector of [sz] bytes, after
    the call.  Then the loop runs [i] from 0 up to [sz].  ([count] is a
    [size_t]; it cannot exceed [sz], so it does not wrap.) *)
Definition elf_verify_result (tbo golden : option (list Byte.byte)) : verify_outcome :=
  match tbo with
  | None => VerifyNullDeref
  | Some ofm_p =>
      let sz := length ofm_p in
      match golden with
      | None => VerifyReadThrows
      | Some ofm_golden_p =>
          let count := count_mismatch 0 sz ofm_p ofm_golden_p 0%N in
          if (count =? 0)%N then VerifyPassed else VerifyThrows count
      end
  end.

(** In how many positions two buffers differ. *)
Definition mismatches (a b : list Byte.byte) : nat :=
  length (filter (λ p, Byte.eqb p.1 p.2 = false) (zip a b)).

(** * Properties *)

(** ** Wrap-around arithmetic *)

Section Wrap.

Import CInt.

Lemma wrap_wrap_succ (z : Z) : wrap (wrap z + 1) = wrap (z + 1).
Proof.
  unfold wrap, INT_BITS. change (2 ^ (32 - 1)) with 2147483648.
  change (2 ^ 32) with 4294967296.
  replace ((z + 2147483648) `mod` 4294967296 - 2147483648 + 1 + 2147483648)
    with ((z + 2147483648) `mod` 4294967296 + 1) by lia.
  replace (z + 1 + 2147483648) with ((z + 2147483648) + 1) by lia.
  rewrite Zplus_mod_idemp_l. reflexivity.
Qed.

Lemma iter_incr (n : nat) : Nat.iter n incr 0 = wrap (Z.of_nat n).
Proof.
  induction n as [|n IH]; [reflexivity|].
  rewrite Nat.iter_succ, IH. unfold incr. rewrite wrap_wrap_succ.
  f_equal. lia.
Qed.

Lemma wrap_inj_close (a b : Z) :
  0 ≤ b ≤ a → a - b < 2 ^ INT_BITS → wrap a = wrap b → a = b.
Proof.
  unfold wrap, INT_BITS. change (2 ^ (32 - 1)) with 2147483648.
  change (2 ^ 32) with 4294967296. intros Hab Hd Heq.
  assert (Hm : (a + 2147483648) `mod` 4294967296 = (b + 2147483648) `mod` 4294967296) by lia.
  pose proof (Z.div_mod (a + 2147483648) 4294967296 ltac:(lia)) as Ha.
  pose proof (Z.div_mod (b + 2147483648) 4294967296 ltac:(lia)) as Hb.
  assert (a - b = 4294967296 * ((a + 2147483648) `div` 4294967296 - (b + 2147483648) `div` 4294967296)) by lia.
  nia.
Qed.

End Wrap.

(** ** The loops in closed form *)

Section Scan.

Implicit Types (l : list amdxdna_hwctx) (cl : list amdxdna_client)
  (st : tdr_locals) (h : amdxdna_hwctx).

Lemma progressing_busy h : progressing h = true → busy h = true.
Proof. unfold progressing. intros H%andb_prop. tauto. Qed.

Lemma idle_count_cons h l :
  idle_count (h :: l) = if busy h then idle_count l else S (idle_count l).
Proof.
  unfold idle_count. rewrite filter_cons.
  destruct (busy h); case_decide; simpl; congruence.
Qed.

Lemma busy_count_cons h l :
  busy_count (h :: l) = if busy h then S (busy_count l) else busy_count l.
Proof.
  unfold busy_count. rewrite filter_cons.
  destruct (busy h); case_decide; simpl; congruence.
Qed.

Lemma idle_busy_count l : (idle_count l + busy_count l)%nat = length l.
Proof.
  induction l as [|h l IH]; [reflexivity|].
  rewrite idle_count_cons, busy_count_cons. destruct (busy h); simpl; lia.
Qed.

Lemma scan_hwctx_spec l st :
  scan_hwctx l st = (refresh_first l, locals_after l st).
Proof.
  revert st. induction l as [|h l IH]; intros st.
  - destruct st. unfold locals_after. simpl. rewrite orb_false_r. reflexivity.
  - assert (Hb : busy h = negb (submitted h =? completed h)%N) by reflexivity.
    assert (Hp : progressing h
                 = busy h && negb (tdr_last_completed h =? completed h)%N)
      by reflexivity.
    cbn [scan_hwctx refresh_first]. unfold locals_after.
    cbn [visited existsb]. rewrite Hp.
    destruct (submitted h =? completed h)%N eqn:Hidle;
      [| destruct (tdr_last_completed h =? completed h)%N eqn:Hlast ];
      rewrite Hb; cbn [negb andb orb];
      rewrite ?IH; unfold locals_after; cbn [active stop_cnt ctx_cnt length];
      rewrite ?orb_true_r, idle_count_cons, Hb; cbn [negb length];
      rewrite ?Nat.iter_succ_r; reflexivity.
Qed.

Lemma refresh_first_none l : existsb progressing l = false → refresh_first l = l.
Proof.
  induction l as [|h l IH]; [reflexivity|]. cbn. intros [H1 H2]%orb_false_elim.
  rewrite H1, IH; done.
Qed.

Lemma visited_none l : existsb progressing l = false → visited l = l.
Proof.
  induction l as [|h l IH]; [reflexivity|]. cbn. intros [H1 H2]%orb_false_elim.
  rewrite H1, IH; done.
Qed.

Lemma refresh_first_app l1 l2 :
  refresh_first (l1 ++ l2) =
    if existsb progressing l1 then refresh_first l1 ++ l2
    else l1 ++ refresh_first l2.
Proof.
  induction l1 as [|h l1 IH]; [reflexivity|]. cbn.
  destruct (progressing h); [reflexivity|]. cbn. rewrite IH.
  destruct (existsb progressing l1); reflexivity.
Qed.

Lemma visited_app l1 l2 :
  visited (l1 ++ l2) =
    if existsb progressing l1 then visited l1 else l1 ++ visited l2.
Proof.
  induction l1 as [|h l1 IH]; [reflexivity|]. cbn.
  destruct (progressing h); [reflexivity|]. cbn. rewrite IH.
  destruct (existsb progressing l1); reflexivity.
Qed.

Lemma idle_count_app l1 l2 :
  idle_count (l1 ++ l2) = (idle_count l1 + idle_count l2)%nat.
Proof. unfold idle_count. rewrite filter_app, length_app. reflexivity. Qed.

Lemma locals_after_app l1 l2 st :
  locals_after (l1 ++ l2) st =
    if existsb progressing l1 then locals_after l1 st
    else locals_after l2 (locals_after l1 st).
Proof.
  unfold locals_after. rewrite visited_app, existsb_app.
  destruct (existsb progressing l1) eqn:H1.
  - rewrite orb_true_l. reflexivity.
  - cbn [active stop_cnt ctx_cnt]. rewrite (visited_none l1 H1).
    rewrite idle_count_app, length_app, !orb_false_r.
    rewrite (Nat.add_comm (idle_count l1)), (Nat.add_comm (length l1)).
    rewrite !Nat.iter_add. cbn [orb]. reflexivity.
Qed.

(** The two nested loops do what one loop over all contexts does. *)
Lemma scan_clients_spec cl st :
  active st = false →
  ∃ cl', scan_clients cl st = (cl', locals_after (all_hwctx cl) st)
         ∧ all_hwctx cl' = refresh_first (all_hwctx cl)
         ∧ shape cl' = shape cl
         ∧ (existsb progressing (all_hwctx cl) = false → cl' = cl).
Proof.
  revert st. induction cl as [|[idr] cl IH]; intros st Hst.
  - exists []. destruct st. cbn in *. subst. done.
  - cbn [scan_clients hwctx_idr]. rewrite scan_hwctx_spec.
    unfold all_hwctx, shape. cbn [map concat hwctx_idr].
    fold (all_hwctx cl). fold (shape cl).
    rewrite locals_after_app, refresh_first_app.
    assert (Ha : active (locals_after idr st) = existsb progressing idr)
      by (cbn; rewrite Hst; reflexivity).
    rewrite Ha. destruct (existsb progressing idr) eqn:Hp.
    + eexists. split; [reflexivity|]. cbn [map concat hwctx_idr].
      fold (all_hwctx cl). fold (shape cl).
      split_and!.
      * reflexivity.
      * f_equal. clear. induction idr as [|h l IH]; [reflexivity|].
        cbn. destruct (progressing h); cbn; congruence.
      * rewrite existsb_app, Hp. discriminate.
    + destruct (IH (locals_after idr st)) as (cl' & Heq & Hall & Hsh & Hid);
        [rewrite Ha; reflexivity|].
      rewrite Heq. eexists. split; [reflexivity|]. cbn [map concat hwctx_idr].
      fold (all_hwctx cl'). fold (shape cl'). rewrite Hall, Hsh.
      rewrite (refresh_first_none idr Hp). split_and!; try reflexivity.
      rewrite existsb_app, Hp. intros Hn. rewrite (Hid Hn). reflexivity.
Qed.

End Scan.


(** ** The verdict of one scan *)

Section Verdict.

Implicit Types (l : list amdxdna_hwctx) (cl : list amdxdna_client)
  (xdna : amdxdna_dev) (h : amdxdna_hwctx).

Lemma no_progress_iff l :
  existsb progressing l = false ↔ ∀ h, h ∈ l → progressing h = false.
Proof.
  induction l as [|a l IH]; cbn.
  - split; [intros _ h Hh; inversion Hh | reflexivity].
  - rewrite orb_false_iff, IH. split.
    + intros [Ha Hl] h [->|Hh]%elem_of_cons; auto.
    + intros H. split; [apply H; left | intros h Hh; apply H; right; exact Hh].
Qed.

Lemma busy_count_pos l : busy_count l ≠ 0%nat ↔ ∃ h, h ∈ l ∧ busy h = true.
Proof.
  induction l as [|a l IH].
  - split; [intros H; contradiction H; reflexivity|].
    intros (h & Hh & _). inversion Hh.
  - rewrite busy_count_cons. destruct (busy a) eqn:Ha.
    + split; [intros _; exists a; split; [left | exact Ha] | lia].
    + rewrite IH. split.
      * intros (h & Hh & Hb). exists h. split; [right; exact Hh | exact Hb].
      * intros (h & [->|Hh]%elem_of_cons & Hb); [congruence|]. eauto.
Qed.

Lemma visited_length l : (length (visited l) ≤ length l)%nat.
Proof.
  induction l as [|a l IH]; cbn; [lia|].
  destruct (progressing a); cbn; lia.
Qed.

Lemma visited_progress_busy l :
  existsb progressing l = true → busy_count (visited l) ≠ 0%nat.
Proof.
  induction l as [|a l IH]; cbn [visited existsb]; [discriminate|].
  destruct (progressing a) eqn:Ha; cbn [orb].
  - intros _. rewrite busy_count_cons, (progressing_busy a Ha). lia.
  - intros H. rewrite busy_count_cons. destruct (busy a); auto.
Qed.

Lemma scan_locals_spec xdna :
  scan_locals xdna = locals_after (all_hwctx (client_list xdna)) locals_init.
Proof.
  unfold scan_locals.
  destruct (scan_clients_spec (client_list xdna) locals_init eq_refl)
    as (cl' & -> & _). reflexivity.
Qed.

Lemma scan_active xdna :
  active (scan_locals xdna) = existsb progressing (all_hwctx (client_list xdna)).
Proof. rewrite scan_locals_spec. reflexivity. Qed.

Lemma scan_ctx_cnt xdna :
  ctx_cnt (scan_locals xdna)
  = CInt.wrap (Z.of_nat (length (visited (all_hwctx (client_list xdna))))).
Proof. rewrite scan_locals_spec. apply iter_incr. Qed.

Lemma scan_stop_cnt xdna :
  stop_cnt (scan_locals xdna)
  = CInt.wrap (Z.of_nat (idle_count (visited (all_hwctx (client_list xdna))))).
Proof. rewrite scan_locals_spec. apply iter_incr. Qed.

(** As long as the device has fewer than 2^32 contexts, the two counters
    differ exactly when the scan has visited a context with outstanding
    work. *)
Lemma scan_counters_differ xdna :
  Z.of_nat (length (all_hwctx (client_list xdna))) < 2 ^ 32 →
  ctx_cnt (scan_locals xdna) ≠ stop_cnt (scan_locals xdna)
  ↔ busy_count (visited (all_hwctx (client_list xdna))) ≠ 0%nat.
Proof.
  intros Hlen. rewrite scan_ctx_cnt, scan_stop_cnt.
  set (v := visited (all_hwctx (client_list xdna))).
  pose proof (visited_length (all_hwctx (client_list xdna))) as Hv. fold v in Hv.
  pose proof (idle_busy_count v) as Hsum.
  split.
  - intros Hne Hz. apply Hne. f_equal. lia.
  - intros Hb Heq. apply Hb.
    apply wrap_inj_close in Heq; unfold CInt.INT_BITS; lia.
Qed.

Lemma scan_verdict_stuck xdna :
  Z.of_nat (length (all_hwctx (client_list xdna))) < 2 ^ 32 →
  ctx_cnt (scan_locals xdna) ≠ stop_cnt (scan_locals xdna)
  ∧ active (scan_locals xdna) = false
  ↔ stuck (all_hwctx (client_list xdna)).
Proof.
  intros Hlen. rewrite (scan_counters_differ xdna Hlen), scan_active.
  unfold stuck. rewrite <- no_progress_iff. split.
  - intros [Hb Hp]. rewrite (visited_none _ Hp) in Hb.
    split; [apply busy_count_pos, Hb | exact Hp].
  - intros [Hb Hp]. rewrite (visited_none _ Hp).
    split; [apply busy_count_pos, Hb | exact Hp].
Qed.

(** The scan as a whole: what it leaves in the contexts. *)
Lemma work_contexts xdna :
  let xdna' := outcome_dev (amdxdna_tdr_work xdna) in
  all_hwctx (client_list xdna') = refresh_first (all_hwctx (client_list xdna))
  ∧ shape (client_list xdna') = shape (client_list xdna)
  ∧ recover xdna' = recover xdna
  ∧ (active (scan_locals xdna) = false → client_list xdna' = client_list xdna).
Proof.
  cbv zeta. rewrite scan_active. unfold amdxdna_tdr_work.
  destruct (scan_clients_spec (client_list xdna) locals_init eq_refl)
    as (cl' & -> & Hall & Hsh & Hid).
  destruct (negb _ && negb _); [destruct xdna as [? [] ?]|]; cbn; auto.
Qed.

(** No action: the run returns and has touched neither the log nor the
    watchdog. *)
Lemma work_no_action xdna :
  ctx_cnt (scan_locals xdna) = stop_cnt (scan_locals xdna)
  ∨ active (scan_locals xdna) = true →
  ∃ cl', amdxdna_tdr_work xdna = Returned (set_client_list cl' xdna) [].
Proof.
  unfold scan_locals, amdxdna_tdr_work.
  destruct (scan_clients (client_list xdna) locals_init) as [cl' st]. cbn [snd].
  intros [Heq | Hact].
  - rewrite Heq, Z.eqb_refl. cbn. eauto.
  - rewrite Hact, andb_false_r. eauto.
Qed.

(** Recovery: the counter goes up by one, the warning carries the new
    value, and recover is called once, or the call goes through NULL. *)
Lemma work_recovers xdna :
  ctx_cnt (scan_locals xdna) ≠ stop_cnt (scan_locals xdna) →
  active (scan_locals xdna) = false →
  let count := (tdr_counter (tdr xdna) + 1)%N in
  let xdna' := set_tdr (set_tdr_counter count (tdr xdna)) xdna in
  amdxdna_tdr_work xdna =
    match recover xdna with
    | Fn => Returned xdna' [EvWarn count; EvRecover]
    | NULL => NullCall xdna' [EvWarn count]
    end.
Proof.
  intros Hne Hact. cbv zeta.
  pose proof (work_contexts xdna) as (_ & _ & _ & Hid). specialize (Hid Hact).
  revert Hne Hact Hid. unfold scan_locals, amdxdna_tdr_work.
  destruct (scan_clients (client_list xdna) locals_init) as [cl' st]. cbn [snd].
  intros Hne Hact. apply Z.eqb_neq in Hne. rewrite Hne, Hact. cbn [negb andb].
  destruct xdna as [cl r t]. cbn. destruct r; cbn; intros ->; reflexivity.
Qed.

End Verdict.

(** ** One scan cycle *)

Section OneScan.

Implicit Types (l : list amdxdna_hwctx) (cl : list amdxdna_client)
  (xdna : amdxdna_dev) (h : amdxdna_hwctx).

Lemma progressing_spec h :
  progressing h = true
  ↔ submitted h ≠ completed h ∧ tdr_last_completed h ≠ completed h.
Proof.
  unfold progressing, busy.
  rewrite andb_true_iff, !negb_true_iff, !N.eqb_neq. reflexivity.
Qed.

Lemma frozen_spec h :
  frozen h = true
  ↔ submitted h ≠ completed h ∧ tdr_last_completed h = completed h.
Proof.
  unfold frozen, busy.
  rewrite andb_true_iff, negb_true_iff, N.eqb_neq, N.eqb_eq. reflexivity.
Qed.

Lemma frozen_not_progressing h : frozen h = true → progressing h = false.
Proof.
  unfold frozen, progressing. intros [-> ->]%andb_prop. reflexivity.
Qed.

(** Where the refreshed snapshot sits. *)
Lemma refresh_first_cases l :
  (existsb progressing l = false ∧ refresh_first l = l)
  ∨ ∃ i h, l !! i = Some h ∧ progressing h = true
      ∧ (∀ j h', (j < i)%nat → l !! j = Some h' → progressing h' = false)
      ∧ visited l = take (S i) l
      ∧ refresh_first l = <[i := set_tdr_last_completed (completed h) h]> l.
Proof.
  induction l as [|a l IH]; [left; done|].
  cbn [existsb refresh_first visited]. destruct (progressing a) eqn:Ha.
  - right. exists 0%nat, a. split_and!; try done. intros j h' Hj. lia.
  - destruct IH as [[Hn Heq] | (i & h & Hi & Hp & Hbefore & Hv & Heq)].
    + left. rewrite Hn, Heq. done.
    + right. exists (S i), h. split_and!; try done.
      * intros [|j] h' Hj Hl; cbn in Hl; [congruence|].
        apply (Hbefore j); [lia | exact Hl].
      * rewrite Hv. reflexivity.
      * rewrite Heq. reflexivity.
Qed.

(** C1.  A run of the work function on a device with a recover operation
    calls it exactly when the scan ends with [ctx_cnt != stop_cnt] and
    [active] unset; otherwise the run emits nothing and the watchdog,
    [tdr_counter] included, is as before.  On a device with fewer than 2^32
    contexts that verdict says: some context has outstanding work, and no
    context with outstanding work has [completed] different from its
    snapshot. *)
Theorem C1_recovery_iff_stuck xdna :
  recover xdna = Fn →
  (recover_calls (outcome_log (amdxdna_tdr_work xdna)) = 1%nat
   ↔ ctx_cnt (scan_locals xdna) ≠ stop_cnt (scan_locals xdna)
     ∧ active (scan_locals xdna) = false)
  ∧ (ctx_cnt (scan_locals xdna) = stop_cnt (scan_locals xdna)
     ∨ active (scan_locals xdna) = true →
       recover_calls (outcome_log (amdxdna_tdr_work xdna)) = 0%nat
       ∧ outcome_log (amdxdna_tdr_work xdna) = []
       ∧ tdr (outcome_dev (amdxdna_tdr_work xdna)) = tdr xdna)
  ∧ (Z.of_nat (length (all_hwctx (client_list xdna))) < 2 ^ 32 →
       (recover_calls (outcome_log (amdxdna_tdr_work xdna)) = 1%nat
        ↔ (∃ h, h ∈ all_hwctx (client_list xdna) ∧ submitted h ≠ completed h)
          ∧ (∀ h, h ∈ all_hwctx (client_list xdna) →
               submitted h ≠ completed h →
               tdr_last_completed h = completed h))).
Proof.
  intros Hrec.
  assert (Hno : ctx_cnt (scan_locals xdna) = stop_cnt (scan_locals xdna)
                ∨ active (scan_locals xdna) = true →
                outcome_log (amdxdna_tdr_work xdna) = []
                ∧ tdr (outcome_dev (amdxdna_tdr_work xdna)) = tdr xdna).
  { intros H. destruct (work_no_action xdna H) as [cl' ->]. done. }
  assert (Hyes : ctx_cnt (scan_locals xdna) ≠ stop_cnt (scan_locals xdna)
                 ∧ active (scan_locals xdna) = false →
                 recover_calls (outcome_log (amdxdna_tdr_work xdna)) = 1%nat).
  { intros [Hne Hact]. rewrite (work_recovers xdna Hne Hact), Hrec. reflexivity. }
  assert (Hiff : recover_calls (outcome_log (amdxdna_tdr_work xdna)) = 1%nat
                 ↔ ctx_cnt (scan_locals xdna) ≠ stop_cnt (scan_locals xdna)
                   ∧ active (scan_locals xdna) = false).
  { split; [|exact Hyes]. intros Hcalls.
    destruct (decide (ctx_cnt (scan_locals xdna) = stop_cnt (scan_locals xdna)))
      as [Heq|Hne].
    - destruct (Hno (or_introl Heq)) as [Hlog _]. rewrite Hlog in Hcalls. discriminate.
    - split; [exact Hne|]. destruct (active (scan_locals xdna)) eqn:Hact; [|done].
      destruct (Hno (or_intror eq_refl)) as [Hlog _]. rewrite Hlog in Hcalls.
      discriminate. }
  split_and!.
  - exact Hiff.
  - intros H. destruct (Hno H) as [Hlog Htdr]. rewrite Hlog. done.
  - intros Hlen. rewrite Hiff, (scan_verdict_stuck xdna Hlen). unfold stuck.
    split; intros [(h & Hh & Hb) Hall].
    + split.
      * exists h. split; [exact Hh|]. unfold busy in Hb.
        apply negb_true_iff, N.eqb_neq in Hb. exact Hb.
      * intros h' Hh' Hbusy. specialize (Hall h' Hh').
        destruct (decide (tdr_last_completed h' = completed h')) as [|Hne]; [done|].
        assert (progressing h' = true) by (apply progressing_spec; done).
        congruence.
    + split.
      * exists h. split; [exact Hh|]. unfold busy.
        apply negb_true_iff, N.eqb_neq. exact Hb.
      * intros h' Hh'. destruct (progressing h') eqn:Hp; [|done].
        apply progressing_spec in Hp as [Hbusy Hne].
        contradiction Hne. apply Hall; done.
Qed.

(** C8.  A scan keeps the clients and how many contexts each has, and it
    leaves the contexts as they are, or it stores [completed] into the
    snapshot of one context, the first in scan order that has outstanding
    work and a [completed] different from its snapshot, and leaves every
    other context as it is. *)
Theorem C8_at_most_one_snapshot xdna :
  shape (client_list (outcome_dev (amdxdna_tdr_work xdna))) = shape (client_list xdna)
  ∧ ((all_hwctx (client_list (outcome_dev (amdxdna_tdr_work xdna)))
        = all_hwctx (client_list xdna)
      ∧ ∀ h, h ∈ all_hwctx (client_list xdna) → progressing h = false)
     ∨ ∃ i h,
         all_hwctx (client_list xdna) !! i = Some h
         ∧ submitted h ≠ completed h
         ∧ tdr_last_completed h ≠ completed h
         ∧ (∀ j h', (j < i)%nat → all_hwctx (client_list xdna) !! j = Some h' →
              progressing h' = false)
         ∧ all_hwctx (client_list (outcome_dev (amdxdna_tdr_work xdna)))
           = <[i := set_tdr_last_completed (completed h) h]>
               (all_hwctx (client_list xdna))
         ∧ ∀ j, j ≠ i →
             all_hwctx (client_list (outcome_dev (amdxdna_tdr_work xdna))) !! j
             = all_hwctx (client_list xdna) !! j).
Proof.
  pose proof (work_contexts xdna) as (Hall & Hsh & _ & _). cbv zeta in Hall, Hsh.
  split; [exact Hsh|]. rewrite Hall.
  destruct (refresh_first_cases (all_hwctx (client_list xdna)))
    as [[Hn Heq] | (i & h & Hi & Hp & Hbefore & _ & Heq)].
  - left. split; [exact Heq | apply no_progress_iff, Hn].
  - right. exists i, h. apply progressing_spec in Hp as [Hb Hl].
    split_and!; try done. intros j Hj. rewrite Heq.
    apply list_lookup_insert_ne. congruence.
Qed.

(** C7.  The three contexts (5,5), (10,7), (10,7), the last two with
    snapshot 7, however they are spread over clients: the scan counts three
    contexts, one of them idle, finds no progress, and the run calls
    recover once and raises the counter by one: [tdr_counter] after the run
    is [tdr_counter] before the run plus 1. *)
Theorem C7_three_contexts xdna (n1 n2 n3 : string) (last1 : N) :
  recover xdna = Fn →
  all_hwctx (client_list xdna)
    = [Hwctx n1 5 5 last1; Hwctx n2 10 7 7; Hwctx n3 10 7 7] →
  ctx_cnt (scan_locals xdna) = 3
  ∧ stop_cnt (scan_locals xdna) = 1
  ∧ active (scan_locals xdna) = false
  ∧ amdxdna_tdr_work xdna
    = Returned (set_tdr (set_tdr_counter (tdr_counter (tdr xdna) + 1) (tdr xdna)) xdna)
        [EvWarn (tdr_counter (tdr xdna) + 1); EvRecover]
  ∧ recover_calls (outcome_log (amdxdna_tdr_work xdna)) = 1%nat
  ∧ tdr_counter (tdr (outcome_dev (amdxdna_tdr_work xdna)))
    = (tdr_counter (tdr xdna) + 1)%N.
Proof.
  intros Hrec Hall.
  assert (Hc : ctx_cnt (scan_locals xdna) = 3)
    by (rewrite scan_ctx_cnt, Hall; reflexivity).
  assert (Hs : stop_cnt (scan_locals xdna) = 1)
    by (rewrite scan_stop_cnt, Hall; reflexivity).
  assert (Ha : active (scan_locals xdna) = false)
    by (rewrite scan_active, Hall; reflexivity).
  assert (Hne : ctx_cnt (scan_locals xdna) ≠ stop_cnt (scan_locals xdna))
    by (rewrite Hc, Hs; discriminate).
  pose proof (work_recovers xdna Hne Ha) as Hw. cbv zeta in Hw.
  rewrite Hrec in Hw. rewrite Hw. done.
Qed.

Lemma refresh_first_length l : length (refresh_first l) = length l.
Proof.
  induction l as [|a l IH]; [reflexivity|]. cbn.
  destruct (progressing a); cbn; congruence.
Qed.

Lemma lookup_second_mark {A} (l1 l2 l3 : list A) (a b : A) :
  (l1 ++ a :: l2 ++ b :: l3) !! (length l1 + S (length l2))%nat = Some b.
Proof.
  change (l1 ++ a :: l2 ++ b :: l3) with (l1 ++ (a :: l2) ++ b :: l3).
  rewrite app_assoc. apply list_lookup_middle.
  rewrite length_app. reflexivity.
Qed.

(** C4.  Context A comes before context B in scan order; A has outstanding
    work and a [completed] different from its snapshot, B has outstanding
    work and a [completed] equal to its snapshot.  Then the scan ends with
    [active] set, the run returns without a warning and without calling
    recover, [tdr_counter] is as before, and B is as before.  When the scan
    gets as far as A (no context before A shows progress), A is the last
    context it counts, and the only change is A's refreshed snapshot. *)
Theorem C4_early_exit xdna (pre mid post : list amdxdna_hwctx) (A B : amdxdna_hwctx) :
  all_hwctx (client_list xdna) = pre ++ A :: mid ++ B :: post →
  submitted A ≠ completed A →
  tdr_last_completed A ≠ completed A →
  submitted B ≠ completed B →
  tdr_last_completed B = completed B →
  active (scan_locals xdna) = true
  ∧ (∃ cl', amdxdna_tdr_work xdna = Returned (set_client_list cl' xdna) [])
  ∧ recover_calls (outcome_log (amdxdna_tdr_work xdna)) = 0%nat
  ∧ tdr_counter (tdr (outcome_dev (amdxdna_tdr_work xdna))) = tdr_counter (tdr xdna)
  ∧ all_hwctx (client_list (outcome_dev (amdxdna_tdr_work xdna)))
      !! (length pre + S (length mid))%nat = Some B
  ∧ ((∀ h, h ∈ pre → progressing h = false) →
       ctx_cnt (scan_locals xdna) = CInt.wrap (Z.of_nat (length pre) + 1)
       ∧ all_hwctx (client_list (outcome_dev (amdxdna_tdr_work xdna)))
         = pre ++ set_tdr_last_completed (completed A) A :: mid ++ B :: post).
Proof.
  intros Hall HbA HlA HbB HlB.
  assert (HpA : progressing A = true) by (apply progressing_spec; done).
  assert (Hact : active (scan_locals xdna) = true).
  { rewrite scan_active, Hall, existsb_app. cbn. rewrite HpA, orb_true_r. done. }
  destruct (work_no_action xdna (or_intror Hact)) as [cl' Hw].
  pose proof (work_contexts xdna) as (Hctx & _). cbv zeta in Hctx.
  rewrite Hall, refresh_first_app in Hctx. cbn [refresh_first] in Hctx.
  rewrite HpA in Hctx.
  split_and!.
  - exact Hact.
  - eauto.
  - rewrite Hw. reflexivity.
  - rewrite Hw. reflexivity.
  - rewrite Hctx. destruct (existsb progressing pre).
    + rewrite <- (refresh_first_length pre). apply lookup_second_mark.
    + apply lookup_second_mark.
  - intros Hpre. apply no_progress_iff in Hpre. rewrite Hpre in Hctx.
    split; [|exact Hctx].
    rewrite scan_ctx_cnt, Hall, visited_app, Hpre. cbn [visited]. rewrite HpA.
    rewrite length_app. cbn [length]. f_equal. lia.
Qed.

(** C3.  Two scans in a row.  The first finds no progress.  At the second,
    the context at position [i] has outstanding work, its [completed] is
    what it was after the first scan and equals its snapshot, and no
    other context shows progress.  Then the second scan finds no progress
    either, and its run prints the warning with the counter raised by
    exactly one and calls recover exactly once.  (After the first scan the
    snapshot of that context already equals its [completed] if it had
    outstanding work then.) *)
Theorem C3_stuck_detection
    (xdna0 xdna1 : amdxdna_dev) (log1 : list event)
    (cl2 : list amdxdna_client) (i : nat) (h1 h2 : amdxdna_hwctx) :
  recover xdna0 = Fn →
  amdxdna_tdr_work xdna0 = Returned xdna1 log1 →
  active (scan_locals xdna0) = false →
  shape cl2 = shape (client_list xdna1) →
  all_hwctx (client_list xdna1) !! i = Some h1 →
  all_hwctx cl2 !! i = Some h2 →
  (completed h2 < submitted h2)%N →
  completed h2 = completed h1 →
  tdr_last_completed h2 = completed h2 →
  (∀ j h, j ≠ i → all_hwctx cl2 !! j = Some h → progressing h = false) →
  Z.of_nat (length (all_hwctx cl2)) < 2 ^ 32 →
  active (scan_locals (set_client_list cl2 xdna1)) = false
  ∧ amdxdna_tdr_work (set_client_list cl2 xdna1)
    = Returned
        (set_tdr (set_tdr_counter (tdr_counter (tdr xdna1) + 1) (tdr xdna1))
           (set_client_list cl2 xdna1))
        [EvWarn (tdr_counter (tdr xdna1) + 1); EvRecover]
  ∧ recover_calls (outcome_log (amdxdna_tdr_work (set_client_list cl2 xdna1))) = 1%nat
  ∧ tdr_counter (tdr (outcome_dev (amdxdna_tdr_work (set_client_list cl2 xdna1))))
    = (tdr_counter (tdr xdna1) + 1)%N
  ∧ (submitted h1 ≠ completed h1 → tdr_last_completed h1 = completed h1).
Proof.
  intros Hrec Hw1 Hfull _ Hi1 Hi2 Hbusy _ Hsnap Hothers Hlen.
  pose proof (work_contexts xdna0) as (_ & _ & Hr & Hsame).
  cbv zeta in Hr, Hsame. rewrite Hw1 in Hr, Hsame. cbn [outcome_dev] in Hr, Hsame.
  assert (Hrec1 : recover xdna1 = Fn) by congruence.
  set (xdna2 := set_client_list cl2 xdna1).
  assert (Hstuck : stuck (all_hwctx (client_list xdna2))).
  { split.
    - exists h2. split; [eapply list_elem_of_lookup_2, Hi2|].
      unfold busy. apply negb_true_iff, N.eqb_neq. lia.
    - intros h [j Hj]%list_elem_of_lookup.
      change (all_hwctx cl2 !! j = Some h) in Hj.
      destruct (decide (j = i)) as [->|Hne].
      + rewrite Hi2 in Hj. injection Hj as <-.
        apply frozen_not_progressing, frozen_spec. split; [lia | exact Hsnap].
      + eapply Hothers; eauto. }
  apply (scan_verdict_stuck xdna2 Hlen) in Hstuck as [Hne Hact].
  pose proof (work_recovers xdna2 Hne Hact) as Hw2. cbv zeta in Hw2.
  change (recover xdna2) with (recover xdna1) in Hw2. rewrite Hrec1 in Hw2.
  split_and!; [exact Hact | exact Hw2 | rewrite Hw2; reflexivity
              | rewrite Hw2; reflexivity |].
  intros Hb1. rewrite (Hsame Hfull) in Hi1.
  rewrite scan_active in Hfull.
  pose proof (proj1 (no_progress_iff _) Hfull h1 (list_elem_of_lookup_2 _ _ _ Hi1)) as Hp.
  destruct (decide (tdr_last_completed h1 = completed h1)) as [|Hl]; [done|].
  assert (progressing h1 = true) by (apply progressing_spec; done). congruence.
Qed.

End OneScan.

(** ** The watchdog in its environment: runs of the system *)

Section System.

Implicit Types (s : sys) (l : label) (ls : list label) (t : amdxdna_tdr)
  (xdna : amdxdna_dev).

(** What a run of the work function can do to the watchdog: nothing, or
    raise [tdr_counter]; the timer, the work item and [started] stay. *)
Lemma work_tdr xdna :
  timer (tdr (outcome_dev (amdxdna_tdr_work xdna))) = timer (tdr xdna)
  ∧ tdr_work (tdr (outcome_dev (amdxdna_tdr_work xdna))) = tdr_work (tdr xdna)
  ∧ started (tdr (outcome_dev (amdxdna_tdr_work xdna))) = started (tdr xdna)
  ∧ recover (outcome_dev (amdxdna_tdr_work xdna)) = recover xdna.
Proof.
  unfold amdxdna_tdr_work.
  destruct (scan_clients (client_list xdna) locals_init) as [cl' st].
  destruct (negb _ && negb _); [destruct xdna as [? [] ?]|]; cbn; auto.
Qed.

Lemma work_returns xdna :
  recover xdna = Fn →
  ∃ xdna' log, amdxdna_tdr_work xdna = Returned xdna' log.
Proof.
  intros Hrec. unfold amdxdna_tdr_work.
  destruct (scan_clients (client_list xdna) locals_init) as [cl' st].
  destruct (negb _ && negb _); [|eauto].
  cbn. rewrite Hrec. eauto.
Qed.

(** Every step but a run of the work function leaves the log, the number
    of runs, the counter and the recover pointer alone. *)
Lemma step_frame l s s' :
  step l s = Some s' → l ≠ WorkerRuns →
  klog s' = klog s ∧ scans s' = scans s ∧ oops s' = oops s
  ∧ tdr_counter (tdr (xdna_dev s')) = tdr_counter (tdr (xdna_dev s))
  ∧ recover (xdna_dev s') = recover (xdna_dev s).
Proof.
  destruct s as [[cl r t] to lg n o]. destruct l; cbn; intros Hs Hl.
  - injection Hs as <-. unfold amdxdna_tdr_start. cbn.
    destruct r; [done|]. destruct (to =? 0); done.
  - injection Hs as <-. unfold amdxdna_tdr_stop. cbn.
    destruct (started t); done.
  - destruct (timer_pending (timer t)); [|discriminate]. injection Hs as <-. done.
  - done.
  - case_bool_decide; [|discriminate]. injection Hs as <-. done.
  - injection Hs as <-. done.
Qed.

Lemma step_work s s' :
  step WorkerRuns s = Some s' →
  work_pending (tdr_work (tdr (xdna_dev s))) = true
  ∧ s' = {| xdna_dev := outcome_dev (amdxdna_tdr_work (take_work (xdna_dev s)));
            timeout_in_sec := timeout_in_sec s;
            klog := klog s ++ outcome_log (amdxdna_tdr_work (take_work (xdna_dev s)));
            scans := S (scans s);
            oops := match amdxdna_tdr_work (take_work (xdna_dev s)) with
                    | NullCall _ _ => true
                    | Returned _ _ => oops s
                    end |}.
Proof.
  cbn. destruct (work_pending _); [|discriminate]. intros [= <-]. done.
Qed.

Lemma recover_calls_app (a b : list event) :
  recover_calls (a ++ b) = (recover_calls a + recover_calls b)%nat.
Proof. unfold recover_calls. rewrite filter_app, length_app. reflexivity. Qed.

(** A device whose contexts are all idle: the run changes nothing. *)
Lemma work_all_idle xdna :
  (∀ h, h ∈ all_hwctx (client_list xdna) → submitted h = completed h) →
  amdxdna_tdr_work xdna = Returned xdna [].
Proof.
  intros Hidle.
  assert (Hb : ∀ h, h ∈ all_hwctx (client_list xdna) → busy h = false).
  { intros h Hh. unfold busy. rewrite (Hidle h Hh), N.eqb_refl. done. }
  assert (Hp : existsb progressing (all_hwctx (client_list xdna)) = false).
  { apply no_progress_iff. intros h Hh. unfold progressing. rewrite (Hb h Hh). done. }
  assert (Hact : active (scan_locals xdna) = false) by (rewrite scan_active; exact Hp).
  assert (Hcnt : ctx_cnt (scan_locals xdna) = stop_cnt (scan_locals xdna)).
  { rewrite scan_ctx_cnt, scan_stop_cnt, (visited_none _ Hp). do 2 f_equal.
    pose proof (idle_busy_count (all_hwctx (client_list xdna))) as Hsum.
    destruct (decide (busy_count (all_hwctx (client_list xdna)) = 0%nat)) as [Hz|Hnz];
      [lia|].
    apply busy_count_pos in Hnz as (h & Hh & Hbusy). rewrite (Hb h Hh) in Hbusy.
    discriminate. }
  destruct (work_no_action xdna (or_introl Hcnt)) as [cl' Hw].
  pose proof (work_contexts xdna) as (_ & _ & _ & Hid). specialize (Hid Hact).
  rewrite Hw in Hid |- *. cbn in Hid. rewrite Hid. destruct xdna; reflexivity.
Qed.

Lemma label_worker_dec l : l = WorkerRuns ∨ l ≠ WorkerRuns.
Proof. destruct l; (left; reflexivity) || (right; discriminate). Qed.

Lemma scan_inputs_work ls s s1 :
  step WorkerRuns s = Some s1 →
  scan_inputs (WorkerRuns :: ls) s = take_work (xdna_dev s) :: scan_inputs ls s1.
Proof. intros H. cbn [scan_inputs]. rewrite H. reflexivity. Qed.

Lemma scan_inputs_other l ls s s1 :
  step l s = Some s1 → l ≠ WorkerRuns →
  scan_inputs (l :: ls) s = scan_inputs ls s1.
Proof. intros H Hl. cbn [scan_inputs]. rewrite H. destruct l; congruence. Qed.

(** C5.  However long the system runs and whatever else happens in between:
    when every run of the work function finds every context with
    [submitted == completed], no run calls recover, nothing is logged and
    [tdr_counter] stays 0. *)
Theorem C5_idle_invariant ls s s' :
  exec ls s = Some s' →
  tdr_counter (tdr (xdna_dev s)) = 0%N →
  recover_calls (klog s) = 0%nat →
  Forall (λ d, ∀ h, h ∈ all_hwctx (client_list d) → submitted h = completed h)
    (scan_inputs ls s) →
  recover_calls (klog s') = 0%nat
  ∧ tdr_counter (tdr (xdna_dev s')) = 0%N
  ∧ klog s' = klog s
  ∧ scans s' = (scans s + length (scan_inputs ls s))%nat.
Proof.
  revert s. induction ls as [|l ls IH]; intros s Hex Hc Hlog Hidle.
  - injection Hex as <-. cbn. split_and!; [done..|lia].
  - cbn [exec] in Hex. destruct (step l s) as [s1|] eqn:Hstep; [|discriminate].
    destruct (label_worker_dec l) as [->|Hl].
    + rewrite (scan_inputs_work ls s s1 Hstep) in Hidle |- *.
      apply Forall_cons in Hidle as [Hd Hrest].
      apply step_work in Hstep as [_ Hs1].
      rewrite (work_all_idle _ Hd) in Hs1. cbn in Hs1. rewrite app_nil_r in Hs1.
      destruct (IH s1 Hex) as (H1 & H2 & H3 & H4);
        [subst s1; exact Hc | subst s1; exact Hlog | exact Hrest |].
      subst s1. cbn in *. split_and!; [done..|lia].
    + rewrite (scan_inputs_other l ls s s1 Hstep Hl) in Hidle |- *.
      destruct (step_frame l s s1 Hstep Hl) as (Hk & Hn & _ & Hcnt & _).
      destruct (IH s1 Hex) as (H1 & H2 & H3 & H4); [congruence.. | exact Hidle |].
      split_and!; congruence.
Qed.

(** A watchdog that is off in a disabled configuration stays off. *)
Lemma step_disabled l s s' :
  step l s = Some s' →
  started (tdr (xdna_dev s)) = false →
  quiescent (tdr (xdna_dev s)) = true →
  disabled s →
  (recover (xdna_dev s) = NULL ∨ ∀ v, l = SetParam v → v = 0) →
  started (tdr (xdna_dev s')) = false
  ∧ quiescent (tdr (xdna_dev s')) = true
  ∧ disabled s'
  ∧ recover (xdna_dev s') = recover (xdna_dev s)
  ∧ scans s' = scans s ∧ klog s' = klog s
  ∧ (l ≠ WorkerRuns) ∧ (l ≠ TimerExpires).
Proof.
  destruct s as [[cl r [[tp] [wp] c st]] to lg n o]. unfold disabled, quiescent.
  cbn. intros Hstep -> Hq. destruct tp, wp; try discriminate Hq. clear Hq.
  revert Hstep. destruct l; cbn; intros Hstep Hdis Hpar; try discriminate.
  - injection Hstep as <-. unfold amdxdna_tdr_start. cbn.
    destruct r; [done|]. destruct Hdis as [ | -> ]; [discriminate|].
    cbn. split_and!; try done. right; done.
  - injection Hstep as <-. done.
  - case_bool_decide; [|discriminate]. injection Hstep as <-. cbn.
    split_and!; try done. destruct Hpar as [->|Hv]; [left; done|].
    right. apply Hv. reflexivity.
  - injection Hstep as <-. done.
Qed.

(** C6.  The watchdog is off and the configuration is disabled: no recover
    operation, or [timeout_in_sec] is 0.  Then the call of start returns
    with the device as it was: [started] is still unset and the timer is
    not armed.  As long as the configuration stays disabled, whatever is
    called and whatever the environment does, the timer never expires and
    the work function never runs. *)
Theorem C6_start_disabled ls s s' :
  started (tdr (xdna_dev s)) = false →
  quiescent (tdr (xdna_dev s)) = true →
  recover (xdna_dev s) = NULL ∨ (timeout_in_sec s = 0 ∧ param_stays_zero ls) →
  exec (CallStart :: ls) s = Some s' →
  amdxdna_tdr_start (timeout_in_sec s) (xdna_dev s) = xdna_dev s
  ∧ step CallStart s = Some s
  ∧ started (tdr (xdna_dev s')) = false
  ∧ timer_pending (timer (tdr (xdna_dev s'))) = false
  ∧ work_pending (tdr_work (tdr (xdna_dev s'))) = false
  ∧ scans s' = scans s
  ∧ klog s' = klog s
  ∧ (WorkerRuns ∉ ls) ∧ (TimerExpires ∉ ls).
Proof.
  intros Hst Hq Hcfg Hex.
  assert (Hdis : disabled s) by (unfold disabled; tauto).
  assert (Hstart : amdxdna_tdr_start (timeout_in_sec s) (xdna_dev s) = xdna_dev s).
  { unfold amdxdna_tdr_start. destruct (recover (xdna_dev s)) eqn:Hr; [done|].
    destruct Hdis as [ | -> ]; [congruence|]. done. }
  assert (Hstep : step CallStart s = Some s).
  { cbn. rewrite Hstart. destruct s; reflexivity. }
  cbn [exec] in Hex. rewrite Hstep in Hex.
  split; [exact Hstart|]. split; [exact Hstep|].
  assert (Hpar : recover (xdna_dev s) = NULL ∨ param_stays_zero ls) by tauto.
  clear Hcfg Hstart Hstep. revert s Hst Hq Hdis Hpar Hex.
  induction ls as [|l ls IH]; intros s Hst Hq Hdis Hpar Hex.
  - injection Hex as <-. apply andb_prop in Hq as [Ht Hw].
    apply negb_true_iff in Ht, Hw.
    split_and!; try done; apply not_elem_of_nil.
  - cbn [exec] in Hex. destruct (step l s) as [s1|] eqn:Hstep; [|discriminate].
    assert (Hl : recover (xdna_dev s) = NULL ∨ ∀ v, l = SetParam v → v = 0).
    { destruct Hpar as [|Hf]; [left; done|]. right.
      apply Forall_cons in Hf as [Hf _]. exact Hf. }
    destruct (step_disabled l s s1 Hstep Hst Hq Hdis Hl)
      as (Hst1 & Hq1 & Hdis1 & Hrec1 & Hn1 & Hk1 & Hnw & Hnt).
    assert (Hpar1 : recover (xdna_dev s1) = NULL ∨ param_stays_zero ls).
    { destruct Hpar as [|Hf]; [left; congruence|]. right.
      apply Forall_cons in Hf as [_ Hf]. exact Hf. }
    destruct (IH s1 Hst1 Hq1 Hdis1 Hpar1 Hex) as (H1 & H2 & H3 & H4 & H5 & H6 & H7).
    split_and!; try congruence.
    + intros [Heq|Hin]%elem_of_cons; [congruence | contradiction].
    + intros [Heq|Hin]%elem_of_cons; [congruence | contradiction].
Qed.

(** C9.  Stop on a watchdog that was never started changes nothing.  Stop
    can always be taken, and a second stop right after the first changes
    nothing any more. *)
Theorem C9_stop_idempotent s :
  (started (tdr (xdna_dev s)) = false → step CallStop s = Some s)
  ∧ (∃ s1, step CallStop s = Some s1
           ∧ step CallStop s1 = Some s1
           ∧ exec [CallStop; CallStop] s = Some s1)
  ∧ amdxdna_tdr_stop (amdxdna_tdr_stop (tdr (xdna_dev s)))
    = amdxdna_tdr_stop (tdr (xdna_dev s)).
Proof.
  destruct s as [[cl r [tm wk c st]] to lg n o]. split_and!.
  - cbn. intros ->. reflexivity.
  - eexists. split; [reflexivity|]. destruct st; cbn; done.
  - destruct st; reflexivity.
Qed.

(** While a timer is armed or a work item queued, the device has a recover
    operation; so no run of the work function calls through NULL. *)
Lemma step_armed_recover l s s' :
  step l s = Some s' →
  (quiescent (tdr (xdna_dev s)) = false → recover (xdna_dev s) = Fn) →
  oops s = false →
  (quiescent (tdr (xdna_dev s')) = false → recover (xdna_dev s') = Fn)
  ∧ oops s' = false
  ∧ recover (xdna_dev s') = recover (xdna_dev s)
  ∧ (l = WorkerRuns → recover (xdna_dev s) = Fn).
Proof.
  intros Hstep Hinv Ho. destruct (label_worker_dec l) as [->|Hl].
  - apply step_work in Hstep as [Hpend ->]. cbn.
    assert (Hrec : recover (xdna_dev s) = Fn).
    { apply Hinv. unfold quiescent. rewrite Hpend, andb_false_r. done. }
    destruct (work_tdr (take_work (xdna_dev s))) as (_ & _ & _ & Hr).
    destruct (work_returns (take_work (xdna_dev s)) Hrec) as (x' & lg & Hw).
    rewrite Hr, Hw. cbn. done.
  - destruct (step_frame l s s' Hstep Hl) as (_ & _ & Ho' & _ & Hr).
    split_and!; [| congruence | exact Hr | done].
    rewrite Hr. destruct s as [[cl r [[tp] [wp] c st]] to lg n o].
    unfold quiescent in *. cbn in *. destruct l; cbn in Hstep.
    + injection Hstep as <-. unfold amdxdna_tdr_start. cbn.
      destruct r; [|done]. destruct (to =? 0); cbn; auto.
    + injection Hstep as <-. unfold amdxdna_tdr_stop. cbn.
      destruct st, tp, wp; cbn in *; auto.
    + destruct tp; [|discriminate]. intros _. apply Hinv. reflexivity.
    + done.
    + case_bool_decide; [|discriminate]. injection Hstep as <-. cbn. exact Hinv.
    + injection Hstep as <-. cbn. exact Hinv.
Qed.

Lemma exec_armed_recover ls s s' :
  exec ls s = Some s' →
  (quiescent (tdr (xdna_dev s)) = false → recover (xdna_dev s) = Fn) →
  oops s = false →
  oops s' = false
  ∧ recover (xdna_dev s') = recover (xdna_dev s)
  ∧ (WorkerRuns ∈ ls → recover (xdna_dev s) = Fn)
  ∧ (klog s' ≠ klog s → recover (xdna_dev s) = Fn).
Proof.
  revert s. induction ls as [|l ls IH]; intros s Hex Hinv Ho.
  - injection Hex as <-. split_and!; [done..| |done]. intros H. inversion H.
  - cbn [exec] in Hex. destruct (step l s) as [s1|] eqn:Hstep; [|discriminate].
    destruct (step_armed_recover l s s1 Hstep Hinv Ho) as (Hinv1 & Ho1 & Hr1 & Hw1).
    destruct (IH s1 Hex Hinv1 Ho1) as (H1 & H2 & H3 & H4).
    split_and!; [exact H1 | congruence | |].
    + intros [Heq|Hin]%elem_of_cons; [apply Hw1; done | rewrite <- Hr1; auto].
    + intros Hlog. destruct (label_worker_dec l) as [Hl|Hl]; [auto|].
      destruct (step_frame l s s1 Hstep Hl) as (Hk & _).
      rewrite <- Hr1. apply H4. congruence.
Qed.

(** C10.  On its own the work function calls through the recover pointer
    without looking at it: run on a device without a recover operation, a
    stuck verdict ends in a call through NULL.  In the system, started from
    a freshly allocated device, this never happens: whatever the schedule,
    no run calls through NULL, and if the work function runs at all, or if
    the log shows a recover call, the device has a recover operation. *)
Theorem C10_recover_present cl rec timeout ls s :
  exec ls (sys_init cl rec timeout) = Some s →
  oops s = false
  ∧ (WorkerRuns ∈ ls → rec = Fn)
  ∧ (recover_calls (klog s) ≠ 0%nat → rec = Fn)
  ∧ (∀ xdna, recover xdna = NULL →
       ctx_cnt (scan_locals xdna) ≠ stop_cnt (scan_locals xdna) →
       active (scan_locals xdna) = false →
       ∃ xdna' log, amdxdna_tdr_work xdna = NullCall xdna' log).
Proof.
  intros Hex.
  destruct (exec_armed_recover ls _ s Hex) as (Ho & _ & Hw & Hk);
    [discriminate | done |].
  cbn in Hw, Hk. split_and!; [exact Ho | exact Hw | |].
  - intros Hcalls. apply Hk. intros Heq. rewrite Heq in Hcalls. contradiction Hcalls.
    reflexivity.
  - intros xdna Hrec Hne Hact. rewrite (work_recovers xdna Hne Hact), Hrec. eauto.
Qed.

(** C2.  What stop does on a started watchdog: the timer is no longer
    armed, so it cannot expire, and the work item is as it was.  A work
    item that the last expiry of the timer has queued is therefore still
    queued when stop returns, and a worker runs it afterwards: here, on a
    device with a stuck context, that late run even calls recover. *)
Theorem C2_work_runs_after_stop :
  (∀ t, started t = true → timer_pending (timer (amdxdna_tdr_stop t)) = false)
  ∧ (∀ t, tdr_work (amdxdna_tdr_stop t) = tdr_work t)
  ∧ ∃ s1 s2,
      exec [CallStart; TimerExpires; CallStop] (sys_init three_ctx_clients Fn 2)
        = Some s1
      ∧ started (tdr (xdna_dev s1)) = true
      ∧ step TimerExpires s1 = None
      ∧ work_pending (tdr_work (tdr (xdna_dev s1))) = true
      ∧ scans s1 = 0%nat
      ∧ step WorkerRuns s1 = Some s2
      ∧ scans s2 = 1%nat
      ∧ klog s2 = [EvWarn 1; EvRecover].
Proof.
  split_and!.
  - intros t Ht. unfold amdxdna_tdr_stop. rewrite Ht. reflexivity.
  - intros t. unfold amdxdna_tdr_stop. destruct (started t); reflexivity.
  - do 2 eexists. split; [reflexivity|]. split_and!; reflexivity.
Qed.

(** Every run that finds the device stuck calls recover once and raises
    the counter by one, for as many runs as there are. *)
Lemma stuck_cycles ls s s' :
  exec ls s = Some s' →
  recover (xdna_dev s) = Fn →
  Forall (λ d, stuck (all_hwctx (client_list d))
               ∧ Z.of_nat (length (all_hwctx (client_list d))) < 2 ^ 32)
    (scan_inputs ls s) →
  recover_calls (klog s')
    = (recover_calls (klog s) + length (scan_inputs ls s))%nat
  ∧ tdr_counter (tdr (xdna_dev s'))
    = (tdr_counter (tdr (xdna_dev s)) + N.of_nat (length (scan_inputs ls s)))%N.
Proof.
  revert s. induction ls as [|l ls IH]; intros s Hex Hrec Hstuck.
  - injection Hex as <-. cbn. split; lia.
  - cbn [exec] in Hex. destruct (step l s) as [s1|] eqn:Hstep; [|discriminate].
    destruct (label_worker_dec l) as [->|Hl].
    + rewrite (scan_inputs_work ls s s1 Hstep) in Hstuck |- *.
      apply Forall_cons in Hstuck as [[Hd Hlen] Hrest].
      apply step_work in Hstep as [_ Hs1].
      apply (scan_verdict_stuck _ Hlen) in Hd as [Hne Hact].
      pose proof (work_recovers _ Hne Hact) as Hw. cbv zeta in Hw.
      change (recover (take_work (xdna_dev s))) with (recover (xdna_dev s)) in Hw.
      rewrite Hrec in Hw. rewrite Hw in Hs1. cbn in Hs1.
      destruct (IH s1 Hex) as [H1 H2]; [subst s1; exact Hrec | exact Hrest |].
      subst s1. cbn [klog xdna_dev] in H1, H2. rewrite recover_calls_app in H1.
      change (recover_calls [EvWarn _; EvRecover]) with 1%nat in H1.
      cbn in H2. cbn [length]. split; lia.
    + rewrite (scan_inputs_other l ls s s1 Hstep Hl) in Hstuck |- *.
      destruct (step_frame l s s1 Hstep Hl) as (Hk & _ & _ & Hcnt & Hr).
      destruct (IH s1 Hex) as [H1 H2]; [congruence | exact Hstuck |].
      split; congruence.
Qed.

(** A snapshot that is out of date passes for progress.  Two contexts are
    idle at one scan; then each gets a job that never completes.  At the
    next scan neither [completed] has moved, and the second context's
    snapshot equals its [completed]; but the first context was never seen
    with outstanding work, its snapshot is older than its [completed], and
    the scan takes that for progress: no recovery in this cycle, only in
    the next. *)
Remark stale_snapshot_defers_recovery :
  let xdna0 := {| client_list := idle_clients; recover := Fn; tdr := tdr_zero |} in
  let xdna1 := set_client_list hung_stale_clients xdna0 in
  amdxdna_tdr_work xdna0 = Returned xdna0 []
  ∧ amdxdna_tdr_work xdna1
    = Returned
        (set_client_list
           [ {| hwctx_idr := [Hwctx "ctx0" 6 5 5] |};
             {| hwctx_idr := [Hwctx "ctx1" 8 7 7] |} ] xdna1) []
  ∧ recover_calls
      (outcome_log (amdxdna_tdr_work (outcome_dev (amdxdna_tdr_work xdna1)))) = 1%nat.
Proof. cbv zeta. split_and!; reflexivity. Qed.

End System.

(** ** The theorems at work on the sample devices *)

Section Witnesses.

Lemma all_idle_check (l : list amdxdna_hwctx) :
  forallb (λ h, (submitted h =? completed h)%N) l = true →
  ∀ h, h ∈ l → submitted h = completed h.
Proof.
  intros H h Hh. apply list_elem_of_In in Hh.
  rewrite forallb_forall in H. apply N.eqb_eq, H, Hh.
Qed.

Lemma C1_witness :
  recover three_ctx_dev = Fn
  ∧ recover_calls (outcome_log (amdxdna_tdr_work three_ctx_dev)) = 1%nat.
Proof.
  split; [reflexivity|].
  apply (proj1 (C1_recovery_iff_stuck three_ctx_dev eq_refl)).
  split; [vm_compute; discriminate | reflexivity].
Defined.

Lemma C3_witness :
  amdxdna_tdr_work idle_dev = Returned idle_dev []
  ∧ amdxdna_tdr_work (set_client_list hung_clients idle_dev)
    = Returned
        (set_tdr (set_tdr_counter 1 tdr_zero) (set_client_list hung_clients idle_dev))
        [EvWarn 1; EvRecover].
Proof.
  split; [reflexivity|].
  apply (C3_stuck_detection idle_dev idle_dev [] hung_clients 1
           (Hwctx "ctx1" 7 7 7) (Hwctx "ctx1" 8 7 7));
    try reflexivity.
  intros [|[|j]] h Hj Hl; [| congruence | discriminate Hl].
  injection Hl as <-. reflexivity.
Defined.

Lemma C4_witness :
  recover_calls (outcome_log (amdxdna_tdr_work moving_dev)) = 0%nat
  ∧ all_hwctx (client_list (outcome_dev (amdxdna_tdr_work moving_dev))) !! 1%nat
    = Some (Hwctx "B" 10 7 7).
Proof.
  assert (H := C4_early_exit moving_dev [] [] [] (Hwctx "A" 4 2 1) (Hwctx "B" 10 7 7)
                 eq_refl ltac:(discriminate) ltac:(discriminate)
                 ltac:(discriminate) eq_refl).
  split; apply H.
Defined.

Lemma C5_witness :
  ∃ s', exec two_periods (sys_init idle_clients Fn 2) = Some s'
        ∧ scans s' = 2%nat
        ∧ (recover_calls (klog s') = 0%nat
           ∧ tdr_counter (tdr (xdna_dev s')) = 0%N
           ∧ klog s' = []
           ∧ scans s' = 2%nat).
Proof.
  eexists. split; [reflexivity|]. split; [reflexivity|].
  apply (C5_idle_invariant two_periods (sys_init idle_clients Fn 2));
    try reflexivity.
  repeat constructor; apply all_idle_check; reflexivity.
Defined.

Lemma C6_witness :
  ∃ s', exec [CallStart; CallStop; SetParam 0; Environment (λ cl, cl); CallStart]
          (sys_init three_ctx_clients Fn 0) = Some s'
        ∧ started (tdr (xdna_dev s')) = false
        ∧ scans s' = 0%nat.
Proof.
  eexists. split; [reflexivity|].
  match goal with
  | |- started (tdr (xdna_dev ?s')) = _ ∧ _ =>
      assert (H : exec [CallStart; CallStop; SetParam 0; Environment (λ cl, cl); CallStart]
                    (sys_init three_ctx_clients Fn 0) = Some s'
                  → started (tdr (xdna_dev s')) = false ∧ scans s' = 0%nat)
  end.
  { intros Hex.
    apply (C6_start_disabled
             [CallStop; SetParam 0; Environment (λ cl, cl); CallStart]
             (sys_init three_ctx_clients Fn 0)) in Hex; try reflexivity.
    - split; apply Hex.
    - right. split; [reflexivity|].
      repeat constructor; intros v [=]; congruence. }
  apply H. reflexivity.
Defined.

Lemma C7_witness :
  ctx_cnt (scan_locals three_ctx_dev) = 3
  ∧ stop_cnt (scan_locals three_ctx_dev) = 1
  ∧ active (scan_locals three_ctx_dev) = false
  ∧ amdxdna_tdr_work three_ctx_dev
    = Returned (set_tdr (set_tdr_counter 1 tdr_zero) three_ctx_dev)
        [EvWarn 1; EvRecover]
  ∧ recover_calls (outcome_log (amdxdna_tdr_work three_ctx_dev)) = 1%nat
  ∧ tdr_counter (tdr (outcome_dev (amdxdna_tdr_work three_ctx_dev))) = 1%N.
Proof.
  exact (C7_three_contexts three_ctx_dev "ctx0" "ctx1" "ctx2" 0 eq_refl eq_refl).
Defined.

Lemma C9_witness :
  step CallStop (sys_init three_ctx_clients Fn 2)
  = Some (sys_init three_ctx_clients Fn 2).
Proof.
  apply (proj1 (C9_stop_idempotent (sys_init three_ctx_clients Fn 2))).
  reflexivity.
Defined.

Lemma C10_witness :
  ∃ s, exec [CallStart; TimerExpires; WorkerRuns] (sys_init three_ctx_clients Fn 2)
         = Some s
       ∧ klog s = [EvWarn 1; EvRecover]
       ∧ oops s = false.
Proof.
  eexists. split; [reflexivity|]. split; [reflexivity|].
  apply (C10_recover_present three_ctx_clients Fn 2
           [CallStart; TimerExpires; WorkerRuns] _ eq_refl).
Defined.

End Witnesses.

(** ** More about one scan *)

Section ScanMore.

Implicit Types (l : list amdxdna_hwctx) (cl : list amdxdna_client)
  (xdna : amdxdna_dev) (h : amdxdna_hwctx).

Lemma wrap_eq_iff (a b : Z) :
  CInt.wrap a = CInt.wrap b ↔ (a - b) `mod` 2 ^ 32 = 0.
Proof.
  unfold CInt.wrap, CInt.INT_BITS. change (2 ^ (32 - 1)) with 2147483648.
  change (2 ^ 32) with 4294967296.
  set (A := a + 2147483648). set (B := b + 2147483648).
  replace (a - b) with (A - B) by (unfold A, B; lia).
  rewrite Z.mod_divide by lia. split.
  - intros H. assert (Hm : A `mod` 4294967296 = B `mod` 4294967296) by lia.
    exists (A `div` 4294967296 - B `div` 4294967296).
    pose proof (Z.div_mod A 4294967296 ltac:(lia)).
    pose proof (Z.div_mod B 4294967296 ltac:(lia)). lia.
  - intros [k Hk]. replace A with (B + k * 4294967296) by lia.
    rewrite Z_mod_plus_full. reflexivity.
Qed.

Lemma progress_count_cons h l :
  progress_count (h :: l)
  = if progressing h then S (progress_count l) else progress_count l.
Proof.
  unfold progress_count. rewrite filter_cons.
  destruct (progressing h); case_decide; simpl; congruence.
Qed.

Lemma progress_count_zero l :
  progress_count l = 0%nat ↔ existsb progressing l = false.
Proof.
  induction l as [|h l IH]; [done|].
  rewrite progress_count_cons. cbn [existsb].
  destruct (progressing h); cbn [orb]; [split; discriminate | exact IH].
Qed.

Lemma refreshed_not_progressing h :
  progressing (set_tdr_last_completed (completed h) h) = false.
Proof.
  unfold progressing. cbn. rewrite N.eqb_refl, andb_false_r. reflexivity.
Qed.

Lemma refreshed_busy v h : busy (set_tdr_last_completed v h) = busy h.
Proof. reflexivity. Qed.

Lemma refresh_first_progress_count l :
  progress_count (refresh_first l) = pred (progress_count l).
Proof.
  induction l as [|h l IH]; [reflexivity|].
  cbn [refresh_first]. destruct (progressing h) eqn:Hp.
  - rewrite !progress_count_cons, refreshed_not_progressing, Hp. reflexivity.
  - rewrite !progress_count_cons, Hp. exact IH.
Qed.

Lemma refresh_first_busy_count l : busy_count (refresh_first l) = busy_count l.
Proof.
  induction l as [|h l IH]; [reflexivity|].
  cbn [refresh_first]. destruct (progressing h) eqn:Hp.
  - rewrite !busy_count_cons, refreshed_busy. reflexivity.
  - rewrite !busy_count_cons, IH. reflexivity.
Qed.

(** X3.  The verdict for any number of contexts.  On a device with a
    recover operation a run calls recover at most once, and it does so
    exactly when no context shows progress and the number of contexts with
    outstanding work is not a multiple of 2^32: the two [int] counters are
    compared after they have wrapped. *)
Theorem X3_exact_verdict xdna :
  recover xdna = Fn →
  (recover_calls (outcome_log (amdxdna_tdr_work xdna)) = 1%nat
   ↔ (∀ h, h ∈ all_hwctx (client_list xdna) → progressing h = false)
     ∧ Z.of_nat (busy_count (all_hwctx (client_list xdna))) `mod` 2 ^ 32 ≠ 0)
  ∧ (recover_calls (outcome_log (amdxdna_tdr_work xdna)) ≤ 1)%nat.
Proof.
  intros Hrec. set (l := all_hwctx (client_list xdna)).
  assert (Hcnt : existsb progressing l = false →
                 (ctx_cnt (scan_locals xdna) = stop_cnt (scan_locals xdna)
                  ↔ Z.of_nat (busy_count l) `mod` 2 ^ 32 = 0)).
  { intros Hp. rewrite scan_ctx_cnt, scan_stop_cnt. fold l.
    rewrite (visited_none l Hp), wrap_eq_iff.
    pose proof (idle_busy_count l) as Hsum.
    replace (Z.of_nat (length l) - Z.of_nat (idle_count l))
      with (Z.of_nat (busy_count l)) by lia. reflexivity. }
  rewrite <- no_progress_iff. fold l.
  destruct (existsb progressing l) eqn:Hp.
  - assert (Hact : active (scan_locals xdna) = true)
      by (rewrite scan_active; exact Hp).
    destruct (work_no_action xdna (or_intror Hact)) as [cl' ->]. cbn.
    split; [|lia]. split; [discriminate | intros [? _]; discriminate].
  - assert (Hact : active (scan_locals xdna) = false)
      by (rewrite scan_active; exact Hp).
    specialize (Hcnt eq_refl).
    destruct (decide (ctx_cnt (scan_locals xdna) = stop_cnt (scan_locals xdna)))
      as [Heq|Hne].
    + destruct (work_no_action xdna (or_introl Heq)) as [cl' ->]. cbn.
      split; [|lia]. split; [discriminate|]. intros [_ Hb]. tauto.
    + rewrite (work_recovers xdna Hne Hact), Hrec. cbn.
      split; [|reflexivity]. split; [|reflexivity]. intros _. split; [done|]. tauto.
Qed.

Lemma X3_witness :
  recover three_ctx_dev = Fn
  ∧ recover_calls (outcome_log (amdxdna_tdr_work three_ctx_dev)) = 1%nat.
Proof.
  split; [reflexivity|].
  apply (proj1 (X3_exact_verdict three_ctx_dev eq_refl)).
  split; [|vm_compute; discriminate].
  apply no_progress_iff. reflexivity.
Defined.

(** X4.  The two nested loops see the contexts as one sequence: two
    devices whose clients hold the same contexts in the same order, however
    grouped, end the scan with the same locals, emit the same, and leave
    the same contexts and the same watchdog. *)
Theorem X4_grouping_irrelevant cl cl' (rec : fn_ptr) (t : amdxdna_tdr) :
  all_hwctx cl = all_hwctx cl' →
  scan_locals (Dev cl rec t) = scan_locals (Dev cl' rec t)
  ∧ outcome_log (amdxdna_tdr_work (Dev cl rec t))
    = outcome_log (amdxdna_tdr_work (Dev cl' rec t))
  ∧ all_hwctx (client_list (outcome_dev (amdxdna_tdr_work (Dev cl rec t))))
    = all_hwctx (client_list (outcome_dev (amdxdna_tdr_work (Dev cl' rec t))))
  ∧ tdr (outcome_dev (amdxdna_tdr_work (Dev cl rec t)))
    = tdr (outcome_dev (amdxdna_tdr_work (Dev cl' rec t))).
Proof.
  intros Hall.
  assert (Hloc : scan_locals (Dev cl rec t) = scan_locals (Dev cl' rec t)).
  { rewrite !scan_locals_spec. cbn [client_list]. rewrite Hall. reflexivity. }
  split; [exact Hloc|].
  pose proof (work_contexts (Dev cl rec t)) as (Ha & _).
  pose proof (work_contexts (Dev cl' rec t)) as (Ha' & _).
  cbv zeta in Ha, Ha'. cbn [client_list] in Ha, Ha'.
  assert (Hctx : all_hwctx (client_list (outcome_dev (amdxdna_tdr_work (Dev cl rec t))))
          = all_hwctx (client_list (outcome_dev (amdxdna_tdr_work (Dev cl' rec t)))))
    by (rewrite Ha, Ha', Hall; reflexivity).
  revert Hloc Hctx. unfold scan_locals, amdxdna_tdr_work. cbn [client_list].
  destruct (scan_clients cl locals_init) as [c1 st1].
  destruct (scan_clients cl' locals_init) as [c2 st2]. cbn [snd].
  intros -> Hctx. destruct (negb _ && negb _); [destruct rec|]; cbn in *; done.
Qed.

Lemma X4_witness :
  outcome_log (amdxdna_tdr_work three_ctx_dev)
  = outcome_log
      (amdxdna_tdr_work
         (Dev [ {| hwctx_idr := [] |};
                {| hwctx_idr := [Hwctx "ctx0" 5 5 0; Hwctx "ctx1" 10 7 7] |};
                {| hwctx_idr := [Hwctx "ctx2" 10 7 7] |} ] Fn tdr_zero)).
Proof.
  apply (X4_grouping_irrelevant three_ctx_clients
           [ {| hwctx_idr := [] |};
             {| hwctx_idr := [Hwctx "ctx0" 5 5 0; Hwctx "ctx1" 10 7 7] |};
             {| hwctx_idr := [Hwctx "ctx2" 10 7 7] |} ] Fn tdr_zero eq_refl).
Defined.



Lemma rescan_succ n xdna :
  rescan (S n) xdna
  = (fst (rescan n (outcome_dev (amdxdna_tdr_work xdna))),
     outcome_log (amdxdna_tdr_work xdna)
       ++ snd (rescan n (outcome_dev (amdxdna_tdr_work xdna)))).
Proof.
  cbn [rescan]. destruct (rescan n (outcome_dev (amdxdna_tdr_work xdna))).
  reflexivity.
Qed.

(** A run that finds progress: silent, the first such snapshot refreshed,
    the watchdog untouched. *)
Lemma work_progress xdna :
  existsb progressing (all_hwctx (client_list xdna)) = true →
  outcome_log (amdxdna_tdr_work xdna) = []
  ∧ all_hwctx (client_list (outcome_dev (amdxdna_tdr_work xdna)))
    = refresh_first (all_hwctx (client_list xdna))
  ∧ tdr (outcome_dev (amdxdna_tdr_work xdna)) = tdr xdna
  ∧ recover (outcome_dev (amdxdna_tdr_work xdna)) = recover xdna.
Proof.
  intros Hp. pose proof (work_contexts xdna) as (Hall & _ & Hrec & _).
  cbv zeta in Hall, Hrec. rewrite <- scan_active in Hp.
  destruct (work_no_action xdna (or_intror Hp)) as [cl' Hw].
  rewrite Hw in Hall, Hrec |- *. done.
Qed.

(** X6.  How long a hung device waits for its recovery.  The counters do
    not move, some context has outstanding work, and [k] contexts show
    progress because their snapshots are out of date.  Each run refreshes
    one of these snapshots and is silent; so the first [k] runs do not
    recover, and run [k + 1] does. *)
Theorem X6_detection_delay xdna :
  recover xdna = Fn →
  Z.of_nat (length (all_hwctx (client_list xdna))) < 2 ^ 32 →
  (∃ h, h ∈ all_hwctx (client_list xdna) ∧ busy h = true) →
  snd (rescan (progress_count (all_hwctx (client_list xdna))) xdna) = []
  ∧ snd (rescan (S (progress_count (all_hwctx (client_list xdna)))) xdna)
    = [EvWarn (tdr_counter (tdr xdna) + 1); EvRecover].
Proof.
  remember (progress_count (all_hwctx (client_list xdna))) as k eqn:Hk.
  revert xdna Hk. induction k as [|k IH]; intros xdna Hk Hrec Hlen Hbusy.
  - split; [reflexivity|]. rewrite rescan_succ. cbn [rescan snd].
    rewrite app_nil_r. symmetry in Hk. apply progress_count_zero in Hk.
    assert (Hstuck : stuck (all_hwctx (client_list xdna)))
      by (split; [exact Hbusy | apply no_progress_iff, Hk]).
    apply (scan_verdict_stuck xdna Hlen) in Hstuck as [Hne Hact].
    rewrite (work_recovers xdna Hne Hact), Hrec. reflexivity.
  - assert (Hp : existsb progressing (all_hwctx (client_list xdna)) = true).
    { destruct (existsb progressing _) eqn:He; [done|].
      apply progress_count_zero in He. congruence. }
    destruct (work_progress xdna Hp) as (Hlog & Hall & Htdr & Hr).
    destruct (IH (outcome_dev (amdxdna_tdr_work xdna))) as [H1 H2].
    + rewrite Hall, refresh_first_progress_count, <- Hk. reflexivity.
    + congruence.
    + rewrite Hall, refresh_first_length. exact Hlen.
    + apply busy_count_pos. rewrite Hall, refresh_first_busy_count.
      apply busy_count_pos, Hbusy.
    + rewrite Htdr in H2. split.
      * rewrite (rescan_succ k), Hlog. exact H1.
      * rewrite (rescan_succ (S k)), Hlog. exact H2.
Qed.

Lemma X6_witness :
  snd (rescan 1 (set_client_list hung_stale_clients idle_dev)) = []
  ∧ snd (rescan 2 (set_client_list hung_stale_clients idle_dev))
    = [EvWarn 1; EvRecover].
Proof.
  apply (X6_detection_delay (set_client_list hung_stale_clients idle_dev) eq_refl).
  - reflexivity.
  - exists (Hwctx "ctx1" 8 7 7). split; [|reflexivity].
    apply list_elem_of_In. right. left. reflexivity.
Defined.

End ScanMore.

(** ** More about runs of the system *)

Section SystemMore.

Implicit Types (s : sys) (l : label) (ls : list label) (t : amdxdna_tdr)
  (xdna : amdxdna_dev).

Lemma has_progress_existsb (lh : list amdxdna_hwctx) :
  (∃ h, h ∈ lh ∧ progressing h = true) → existsb progressing lh = true.
Proof.
  intros (h & Hh & Hp). apply existsb_exists. exists h.
  split; [apply list_elem_of_In, Hh | exact Hp].
Qed.

(** X1.  However long the system runs: when every run of the work function
    finds some context that shows progress, no run warns or recovers, and
    [tdr_counter] stays where it was. *)
Theorem X1_healthy_invariant ls s s' :
  exec ls s = Some s' →
  Forall (λ d, ∃ h, h ∈ all_hwctx (client_list d) ∧ progressing h = true)
    (scan_inputs ls s) →
  klog s' = klog s
  ∧ tdr_counter (tdr (xdna_dev s')) = tdr_counter (tdr (xdna_dev s))
  ∧ oops s' = oops s
  ∧ scans s' = (scans s + length (scan_inputs ls s))%nat.
Proof.
  revert s. induction ls as [|l ls IH]; intros s Hex Hp.
  - injection Hex as <-. cbn. split_and!; [done..|lia].
  - cbn [exec] in Hex. destruct (step l s) as [s1|] eqn:Hstep; [|discriminate].
    destruct (label_worker_dec l) as [->|Hl].
    + rewrite (scan_inputs_work ls s s1 Hstep) in Hp |- *.
      apply Forall_cons in Hp as [Hd Hrest].
      apply step_work in Hstep as [_ Hs1].
      apply has_progress_existsb in Hd. rewrite <- scan_active in Hd.
      destruct (work_no_action _ (or_intror Hd)) as [cl' Hw].
      rewrite Hw in Hs1. cbn in Hs1. rewrite app_nil_r in Hs1.
      destruct (IH s1 Hex Hrest) as (H1 & H2 & H3 & H4).
      subst s1. cbn in *. split_and!; [done..|lia].
    + rewrite (scan_inputs_other l ls s s1 Hstep Hl) in Hp |- *.
      destruct (step_frame l s s1 Hstep Hl) as (Hk & Hn & Ho & Hcnt & _).
      destruct (IH s1 Hex Hp) as (H1 & H2 & H3 & H4).
      split_and!; congruence.
Qed.

Lemma X1_witness :
  ∃ s', exec [CallStart; TimerExpires; WorkerRuns] (sys_init moving_then_frozen Fn 2)
          = Some s'
        ∧ (klog s' = []
           ∧ tdr_counter (tdr (xdna_dev s')) = 0%N
           ∧ oops s' = false
           ∧ scans s' = 1%nat).
Proof.
  eexists. split; [reflexivity|].
  apply (X1_healthy_invariant [CallStart; TimerExpires; WorkerRuns]
           (sys_init moving_then_frozen Fn 2)); [reflexivity|].
  repeat constructor. exists (Hwctx "A" 4 2 1).
  split; [apply list_elem_of_In; left; reflexivity | reflexivity].
Defined.

Lemma recovery_events_shift (c : N) (a n : nat) :
  flat_map (λ k, [EvWarn (c + N.of_nat k); EvRecover]) (seq (S a) n)
  = flat_map (λ k, [EvWarn (c + 1 + N.of_nat k); EvRecover]) (seq a n).
Proof.
  revert a. induction n as [|n IH]; intros a; [reflexivity|].
  cbn [seq flat_map]. rewrite IH. do 3 f_equal. lia.
Qed.

Lemma recovery_events_succ (c : N) (n : nat) :
  recovery_events c (S n)
  = [EvWarn (c + 1); EvRecover] ++ recovery_events (c + 1) n.
Proof.
  unfold recovery_events. cbn [seq flat_map]. rewrite recovery_events_shift.
  reflexivity.
Qed.

(** X2.  The log and the counter account for every run.  On a device with
    a recover operation, whatever the schedule: the log grows by one
    warning and one recover call for each run whose scan ends with
    [ctx_cnt != stop_cnt && !active], the warnings carry consecutive
    numbers that continue from the counter, and the counter goes up by the
    number of these runs. *)
Theorem X2_recovery_accounting ls s s' :
  exec ls s = Some s' →
  recover (xdna_dev s) = Fn →
  klog s'
  = klog s
    ++ recovery_events (tdr_counter (tdr (xdna_dev s)))
         (length (filter (λ d, needs_recovery d = true) (scan_inputs ls s)))
  ∧ tdr_counter (tdr (xdna_dev s'))
    = (tdr_counter (tdr (xdna_dev s))
       + N.of_nat (length (filter (λ d, needs_recovery d = true)
                             (scan_inputs ls s))))%N
  ∧ oops s' = oops s.
Proof.
  revert s. induction ls as [|l ls IH]; intros s Hex Hrec.
  - injection Hex as <-. cbn. rewrite app_nil_r. split_and!; [done | lia | done].
  - cbn [exec] in Hex. destruct (step l s) as [s1|] eqn:Hstep; [|discriminate].
    destruct (label_worker_dec l) as [->|Hl].
    + rewrite (scan_inputs_work ls s s1 Hstep).
      apply step_work in Hstep as [_ Hs1]. rewrite filter_cons.
      set (d := take_work (xdna_dev s)) in *.
      destruct (needs_recovery d) eqn:Hneed.
      * unfold needs_recovery in Hneed. apply andb_prop in Hneed as [Hne Hact].
        apply negb_true_iff in Hne, Hact. apply Z.eqb_neq in Hne.
        pose proof (work_recovers d Hne Hact) as Hw. cbv zeta in Hw.
        change (recover d) with (recover (xdna_dev s)) in Hw.
        rewrite Hrec in Hw. rewrite Hw in Hs1. cbn [outcome_dev outcome_log] in Hs1.
        destruct (IH s1 Hex) as (H1 & H2 & H3); [subst s1; exact Hrec|].
        rewrite decide_True by reflexivity. cbn [length].
        rewrite recovery_events_succ, H1, H2, H3. subst s1. cbn.
        rewrite <- !app_assoc. split_and!; [reflexivity | lia | reflexivity].
      * assert (Hno : ctx_cnt (scan_locals d) = stop_cnt (scan_locals d)
                      ∨ active (scan_locals d) = true).
        { unfold needs_recovery in Hneed. apply andb_false_iff in Hneed as [H|H];
            apply negb_false_iff in H; [left; apply Z.eqb_eq, H | right; exact H]. }
        destruct (work_no_action d Hno) as [cl' Hw].
        rewrite Hw in Hs1. cbn [outcome_dev outcome_log] in Hs1.
        rewrite app_nil_r in Hs1.
        destruct (IH s1 Hex) as (H1 & H2 & H3); [subst s1; exact Hrec|].
        rewrite decide_False by discriminate.
        rewrite H1, H2, H3. subst s1. cbn. done.
    + rewrite (scan_inputs_other l ls s s1 Hstep Hl).
      destruct (step_frame l s s1 Hstep Hl) as (Hk & _ & Ho & Hcnt & Hr).
      destruct (IH s1 Hex) as (H1 & H2 & H3); [congruence|].
      rewrite H1, H2, H3, Hk, Hcnt, Ho. done.
Qed.

Lemma X2_witness :
  ∃ s', exec [CallStart; TimerExpires; WorkerRuns; TimerExpires; WorkerRuns]
          (sys_init three_ctx_clients Fn 2) = Some s'
        ∧ klog s' = [EvWarn 1; EvRecover; EvWarn 2; EvRecover]
        ∧ tdr_counter (tdr (xdna_dev s')) = 2%N.
Proof.
  eexists. split; [reflexivity|].
  assert (H := X2_recovery_accounting
                 [CallStart; TimerExpires; WorkerRuns; TimerExpires; WorkerRuns]
                 (sys_init three_ctx_clients Fn 2)).
  split; [apply H | apply H]; reflexivity.
Defined.

Lemma timer_expiries_cons l ls :
  timer_expiries (l :: ls)
  = ((if is_timer_expiry l then 1 else 0) + timer_expiries ls)%nat.
Proof.
  unfold timer_expiries. rewrite filter_cons.
  destruct (is_timer_expiry l); case_decide; simpl; congruence.
Qed.

(** What one step does to the timer, to the work item and to [started]. *)
Lemma step_watchdog l s s' :
  step l s = Some s' →
  match l with
  | CallStart =>
      tdr (xdna_dev s') = tdr (xdna_dev s)
      ∨ (timer_pending (timer (tdr (xdna_dev s'))) = true
         ∧ work_pending (tdr_work (tdr (xdna_dev s'))) = false
         ∧ started (tdr (xdna_dev s')) = true)
  | CallStop =>
      tdr (xdna_dev s') = amdxdna_tdr_stop (tdr (xdna_dev s))
  | TimerExpires =>
      timer_pending (timer (tdr (xdna_dev s))) = true
      ∧ timer_pending (timer (tdr (xdna_dev s'))) = true
      ∧ work_pending (tdr_work (tdr (xdna_dev s'))) = true
      ∧ started (tdr (xdna_dev s')) = started (tdr (xdna_dev s))
  | WorkerRuns =>
      work_pending (tdr_work (tdr (xdna_dev s))) = true
      ∧ timer (tdr (xdna_dev s')) = timer (tdr (xdna_dev s))
      ∧ work_pending (tdr_work (tdr (xdna_dev s'))) = false
      ∧ started (tdr (xdna_dev s')) = started (tdr (xdna_dev s))
      ∧ scans s' = S (scans s)
  | SetParam _ | Environment _ =>
      tdr (xdna_dev s') = tdr (xdna_dev s)
  end
  ∧ (l ≠ WorkerRuns → scans s' = scans s).
Proof.
  intros Hstep. split; [|intros Hl; apply (step_frame l s s' Hstep Hl)].
  destruct l.
  - injection Hstep as <-. cbn. unfold amdxdna_tdr_start.
    destruct (recover (xdna_dev s)); [left; done|].
    destruct (timeout_in_sec s =? 0); [left; done | right; done].
  - injection Hstep as <-. reflexivity.
  - cbn in Hstep. destruct (timer_pending _) eqn:Hp; [|discriminate].
    injection Hstep as <-. done.
  - apply step_work in Hstep as [Hp ->]. cbn [xdna_dev scans].
    destruct (work_tdr (take_work (xdna_dev s))) as (Ht & Hw & Hst & _).
    rewrite Ht, Hw, Hst. done.
  - cbn in Hstep. case_bool_decide; [|discriminate]. injection Hstep as <-. done.
  - injection Hstep as <-. reflexivity.
Qed.

(** X7.  One run per expiry at most.  The runs of the work function done
    and owed never exceed those done and owed before plus the number of
    timer expiries: an expiry that finds the work item still queued adds
    no run.  From a fresh device the work function has run at most as often
    as the timer has expired. *)
Theorem X7_one_run_per_expiry ls s s' :
  exec ls s = Some s' →
  (scans s' + pending_runs (tdr (xdna_dev s'))
   ≤ scans s + pending_runs (tdr (xdna_dev s)) + timer_expiries ls)%nat.
Proof.
  revert s. induction ls as [|l ls IH]; intros s Hex.
  - injection Hex as <-. lia.
  - cbn [exec] in Hex. destruct (step l s) as [s1|] eqn:Hstep; [|discriminate].
    specialize (IH s1 Hex). rewrite timer_expiries_cons.
    destruct (step_watchdog l s s1 Hstep) as [Hw Hn]. unfold pending_runs in *.
    revert IH. destruct l; cbn [is_timer_expiry].
    + rewrite Hn by discriminate.
      destruct Hw as [-> | (_ & -> & _)]; [lia|].
      destruct (work_pending (tdr_work (tdr (xdna_dev s)))); lia.
    + rewrite Hn by discriminate. rewrite Hw. unfold amdxdna_tdr_stop.
      destruct (started (tdr (xdna_dev s))); cbn; lia.
    + rewrite Hn by discriminate. destruct Hw as (_ & _ & -> & _).
      destruct (work_pending (tdr_work (tdr (xdna_dev s)))); lia.
    + destruct Hw as (-> & _ & -> & _ & ->). lia.
    + rewrite Hn by discriminate. rewrite Hw. lia.
    + rewrite Hn by discriminate. rewrite Hw. lia.
Qed.

Lemma X7_witness :
  ∃ s', exec [CallStart; TimerExpires; TimerExpires; TimerExpires; WorkerRuns]
          (sys_init three_ctx_clients Fn 2) = Some s'
        ∧ scans s' = 1%nat
        ∧ step WorkerRuns s' = None
        ∧ (scans s' + pending_runs (tdr (xdna_dev s')) ≤ 0 + 0 + 3)%nat.
Proof.
  eexists. split; [reflexivity|]. split; [reflexivity|]. split; [reflexivity|].
  apply (X7_one_run_per_expiry
           [CallStart; TimerExpires; TimerExpires; TimerExpires; WorkerRuns]
           (sys_init three_ctx_clients Fn 2)).
  reflexivity.
Defined.

Lemma no_start_timer_stays_off ls s s' :
  exec ls s = Some s' →
  timer_pending (timer (tdr (xdna_dev s))) = false →
  Forall (λ l, is_call_start l = false) ls →
  timer_pending (timer (tdr (xdna_dev s'))) = false
  ∧ timer_expiries ls = 0%nat
  ∧ (scans s' + pending_runs (tdr (xdna_dev s'))
     ≤ scans s + pending_runs (tdr (xdna_dev s)))%nat.
Proof.
  revert s. induction ls as [|l ls IH]; intros s Hex Hoff Hns.
  - injection Hex as <-. split_and!; [done | reflexivity | lia].
  - cbn [exec] in Hex. destruct (step l s) as [s1|] eqn:Hstep; [|discriminate].
    apply Forall_cons in Hns as [Hl Hns].
    destruct (step_watchdog l s s1 Hstep) as [Hw Hn].
    assert (Hoff1 : timer_pending (timer (tdr (xdna_dev s1))) = false
                    ∧ (scans s1 + pending_runs (tdr (xdna_dev s1))
                       ≤ scans s + pending_runs (tdr (xdna_dev s)))%nat
                    ∧ is_timer_expiry l = false).
    { unfold pending_runs. destruct l; try discriminate Hl.
      - rewrite Hn by discriminate. rewrite Hw. unfold amdxdna_tdr_stop.
        destruct (started (tdr (xdna_dev s))); cbn; split_and!; try done; lia.
      - destruct Hw as (Hon & _). congruence.
      - destruct Hw as (-> & -> & -> & _ & ->). split_and!; try done; lia.
      - rewrite Hn by discriminate. rewrite Hw. split_and!; try done; lia.
      - rewrite Hn by discriminate. rewrite Hw. split_and!; try done; lia. }
    destruct Hoff1 as (Hoff1 & Hle & Hnt).
    destruct (IH s1 Hex Hoff1 Hns) as (H1 & H2 & H3).
    rewrite timer_expiries_cons, Hnt. split_and!; try done; lia.
Qed.

(** X8.  After stop and until the next start the timer does not expire and
    is not armed again, and the work function starts at most once more:
    only a work item that was queued when stop was called is still run. *)
Theorem X8_after_stop ls s s' :
  started (tdr (xdna_dev s)) = true →
  Forall (λ l, is_call_start l = false) ls →
  exec (CallStop :: ls) s = Some s' →
  timer_pending (timer (tdr (xdna_dev s'))) = false
  ∧ timer_expiries ls = 0%nat
  ∧ (scans s' ≤ scans s + pending_runs (tdr (xdna_dev s)))%nat
  ∧ (scans s' ≤ scans s + 1)%nat.
Proof.
  intros Hst Hns Hex. cbn [exec] in Hex.
  destruct (step CallStop s) as [s1|] eqn:Hstep; [|discriminate].
  destruct (step_watchdog CallStop s s1 Hstep) as [Hw Hn].
  unfold amdxdna_tdr_stop in Hw. rewrite Hst in Hw. cbn [negb] in Hw.
  destruct (no_start_timer_stays_off ls s1 s' Hex) as (H1 & H2 & H3);
    [rewrite Hw; reflexivity | exact Hns |].
  rewrite Hn in H3 by discriminate. rewrite Hw in H3.
  unfold pending_runs in *. cbn in H3.
  destruct (work_pending (tdr_work (tdr (xdna_dev s))));
    destruct (work_pending (tdr_work (tdr (xdna_dev s')))); split_and!; try done; lia.
Qed.

Lemma X8_witness :
  ∃ s s', exec [CallStart; TimerExpires] (sys_init three_ctx_clients Fn 2) = Some s
          ∧ exec [CallStop; WorkerRuns; Environment (λ cl, cl); CallStop] s = Some s'
          ∧ scans s' = 1%nat
          ∧ (timer_pending (timer (tdr (xdna_dev s'))) = false
             ∧ timer_expiries [WorkerRuns; Environment (λ cl, cl); CallStop] = 0%nat
             ∧ (scans s' ≤ scans s + pending_runs (tdr (xdna_dev s)))%nat
             ∧ (scans s' ≤ scans s + 1)%nat).
Proof.
  do 2 eexists. split; [reflexivity|]. split; [reflexivity|].
  split; [reflexivity|].
  apply (X8_after_stop [WorkerRuns; Environment (λ cl, cl); CallStop]);
    [reflexivity | repeat constructor | reflexivity].
Defined.

Lemma exec_app ls1 ls2 s :
  exec (ls1 ++ ls2) s
  = match exec ls1 s with Some s1 => exec ls2 s1 | None => None end.
Proof.
  revert s. induction ls1 as [|l ls1 IH]; intros s; [reflexivity|].
  cbn [exec app]. destruct (step l s); [apply IH | reflexivity].
Qed.

Lemma exec_armed_started ls s s' :
  exec ls s = Some s' →
  (quiescent (tdr (xdna_dev s)) = false → started (tdr (xdna_dev s)) = true) →
  quiescent (tdr (xdna_dev s')) = false → started (tdr (xdna_dev s')) = true.
Proof.
  revert s. induction ls as [|l ls IH]; intros s Hex Hinv.
  - injection Hex as <-. exact Hinv.
  - cbn [exec] in Hex. destruct (step l s) as [s1|] eqn:Hstep; [|discriminate].
    apply (IH s1 Hex). clear IH Hex.
    destruct (step_watchdog l s s1 Hstep) as [Hw _]. unfold quiescent in *.
    destruct l.
    + destruct Hw as [-> | (_ & _ & ->)]; [exact Hinv | done].
    + rewrite Hw. unfold amdxdna_tdr_stop.
      destruct (started (tdr (xdna_dev s))) eqn:Hst; [done|]. cbn.
      intros Hq. apply Hinv in Hq. congruence.
    + destruct Hw as (Hp & _ & _ & ->). intros _. apply Hinv. rewrite Hp. done.
    + destruct Hw as (Hp & _ & _ & -> & _). intros _. apply Hinv.
      rewrite Hp, andb_false_r. done.
    + rewrite Hw. exact Hinv.
    + rewrite Hw. exact Hinv.
Qed.

(** X9.  Stop leaves no armed timer behind.  On a device that started
    freshly allocated, whatever has happened since: an armed timer or a
    queued work item means that [started] is set, so the early return of
    stop skips no armed timer, and after stop the timer is not armed. *)
Theorem X9_stop_disarms cl (rec : fn_ptr) (timeout : Z) ls s s' :
  exec ls (sys_init cl rec timeout) = Some s →
  step CallStop s = Some s' →
  (quiescent (tdr (xdna_dev s)) = false → started (tdr (xdna_dev s)) = true)
  ∧ timer_pending (timer (tdr (xdna_dev s'))) = false
  ∧ step TimerExpires s' = None.
Proof.
  intros Hex Hstop.
  assert (Hinv : quiescent (tdr (xdna_dev s)) = false
                 → started (tdr (xdna_dev s)) = true).
  { apply (exec_armed_started ls _ s Hex). discriminate. }
  assert (Hoff : timer_pending (timer (tdr (xdna_dev s'))) = false).
  { injection Hstop as <-. cbn. unfold amdxdna_tdr_stop, quiescent in *.
    destruct (started (tdr (xdna_dev s))); [reflexivity|]. cbn.
    destruct (timer_pending (timer (tdr (xdna_dev s)))); [|reflexivity].
    discriminate Hinv. reflexivity. }
  split_and!; [exact Hinv | exact Hoff |]. cbn. rewrite Hoff. reflexivity.
Qed.

Lemma X9_witness :
  ∃ s s', exec [CallStart; TimerExpires; WorkerRuns; TimerExpires]
            (sys_init three_ctx_clients Fn 2) = Some s
          ∧ step CallStop s = Some s'
          ∧ timer_pending (timer (tdr (xdna_dev s))) = true
          ∧ timer_pending (timer (tdr (xdna_dev s'))) = false.
Proof.
  do 2 eexists. split; [reflexivity|]. split; [reflexivity|].
  split; [reflexivity|].
  apply (X9_stop_disarms three_ctx_clients Fn 2
           [CallStart; TimerExpires; WorkerRuns; TimerExpires] _ _
           eq_refl eq_refl).
Defined.

(** X10.  Nothing but stop disarms the timer.  Once the timer is armed it
    stays armed over every schedule without a call of stop, also when
    [timeout_in_sec] is set to 0 meanwhile, and it can expire again. *)
Theorem X10_armed_until_stop ls s s' :
  exec ls s = Some s' →
  timer_pending (timer (tdr (xdna_dev s))) = true →
  Forall (λ l, is_call_stop l = false) ls →
  timer_pending (timer (tdr (xdna_dev s'))) = true
  ∧ ∃ s'', step TimerExpires s' = Some s''.
Proof.
  intros Hex Hon Hns.
  assert (Hon' : timer_pending (timer (tdr (xdna_dev s'))) = true).
  { revert s Hex Hon. induction ls as [|l ls IH]; intros s Hex Hon.
    - injection Hex as <-. exact Hon.
    - cbn [exec] in Hex. destruct (step l s) as [s1|] eqn:Hstep; [|discriminate].
      apply Forall_cons in Hns as [Hl Hns]. apply (IH Hns s1 Hex).
      destruct (step_watchdog l s s1 Hstep) as [Hw _].
      destruct l; try discriminate Hl.
      + destruct Hw as [-> | (-> & _)]; done.
      + destruct Hw as (_ & -> & _). reflexivity.
      + destruct Hw as (_ & -> & _). exact Hon.
      + rewrite Hw. exact Hon.
      + rewrite Hw. exact Hon. }
  split; [exact Hon'|]. cbn. rewrite Hon'. eauto.
Qed.

Lemma X10_witness :
  ∃ s', exec [SetParam 0; TimerExpires; CallStart; WorkerRuns]
          (Sys (amdxdna_tdr_start 2 three_ctx_dev) 2 [] 0 false) = Some s'
        ∧ timer_pending (timer (tdr (xdna_dev s'))) = true.
Proof.
  eexists. split; [reflexivity|].
  eapply proj1,
    (X10_armed_until_stop [SetParam 0; TimerExpires; CallStart; WorkerRuns]
       (Sys (amdxdna_tdr_start 2 three_ctx_dev) 2 [] 0 false));
    [reflexivity | reflexivity | repeat constructor].
Defined.

End SystemMore.

(** ** The period of the timer *)

Section Period.

(** X11.  The period that the timer is given.  Up to 4294967 seconds it is
    the parameter times 1000 milliseconds; above, the product wraps in
    [unsigned int] and the period is shorter than configured; and it is 0
    exactly for the multiples of 2^29, of which only 0 keeps start from
    arming the timer. *)
Theorem X11_timeout_msecs (timeout : Z) :
  0 ≤ timeout ≤ CInt.UINT_MAX →
  0 ≤ tdr_timeout_msecs timeout < 2 ^ 32
  ∧ (timeout ≤ 4294967 → tdr_timeout_msecs timeout = 1000 * timeout)
  ∧ (4294967 < timeout → tdr_timeout_msecs timeout ≤ 1000 * timeout - 2 ^ 32)
  ∧ (tdr_timeout_msecs timeout = 0 ↔ timeout `mod` 2 ^ 29 = 0)
  ∧ (timeout ≠ 0 → ∀ xdna, recover xdna = Fn →
       timer_pending (timer (tdr (amdxdna_tdr_start timeout xdna))) = true).
Proof.
  unfold CInt.UINT_MAX, tdr_timeout_msecs. change (2 ^ 32) with 4294967296.
  change (2 ^ 29) with 536870912. intros Hr.
  pose proof (Z.mod_pos_bound (timeout * 1000) 4294967296 ltac:(lia)) as Hb.
  split; [exact Hb|]. split; [|split; [|split]].
  - intros Hle. rewrite Z.mod_small; lia.
  - intros Hgt.
    pose proof (Z.div_mod (timeout * 1000) 4294967296 ltac:(lia)) as Hdm.
    assert (1 ≤ (timeout * 1000) `div` 4294967296)
      by (apply Z.div_le_lower_bound; lia).
    lia.
  - rewrite !Z.mod_divide by lia.
    replace (timeout * 1000) with (8 * (125 * timeout)) by lia.
    change 4294967296 with (8 * 536870912).
    rewrite Z.mul_divide_cancel_l by lia. split.
    + intros Hd. apply (Z.gauss _ 125); [exact Hd | reflexivity].
    + intros Hd. apply Z.divide_mul_r, Hd.
  - intros Hnz xdna Hrec. unfold amdxdna_tdr_start. rewrite Hrec.
    destruct (timeout =? 0) eqn:Hz; [apply Z.eqb_eq in Hz; contradiction|].
    reflexivity.
Qed.

Lemma X11_witness :
  0 ≤ 536870912 ≤ CInt.UINT_MAX
  ∧ tdr_timeout_msecs 536870912 = 0
  ∧ tdr_timeout_msecs 4294968 ≤ 1000 * 4294968 - 2 ^ 32
  ∧ timer_pending (timer (tdr (amdxdna_tdr_start 536870912 three_ctx_dev))) = true.
Proof.
  assert (Hr : 0 ≤ 536870912 ≤ CInt.UINT_MAX) by (vm_compute; split; discriminate).
  assert (Hr' : 0 ≤ 4294968 ≤ CInt.UINT_MAX) by (vm_compute; split; discriminate).
  split; [exact Hr|].
  destruct (X11_timeout_msecs 536870912 Hr) as (_ & _ & _ & Hz & Hs).
  destruct (X11_timeout_msecs 4294968 Hr') as (_ & _ & Hw & _).
  split; [apply Hz; reflexivity|].
  split; [apply Hw; reflexivity|].
  apply Hs; [discriminate | reflexivity].
Defined.

End Period.

(** ** The result check of the I/O test *)

Section VerifyResult.

Implicit Types (a b pre : list Byte.byte) (count : N).

Lemma mismatches_cons x y a b :
  mismatches (x :: a) (y :: b)
  = if Byte.eqb x y then mismatches a b else S (mismatches a b).
Proof.
  unfold mismatches. cbn [zip zip_with]. rewrite filter_cons. cbn [fst snd].
  destruct (Byte.eqb x y); case_decide; simpl; congruence.
Qed.

Lemma mismatches_le a b : (mismatches a b ≤ length a)%nat.
Proof.
  revert b. induction a as [|x a IH]; intros [|y b]; cbn [length];
    try (unfold mismatches; cbn; lia).
  rewrite mismatches_cons. specialize (IH b). destruct (Byte.eqb x y); lia.
Qed.

Lemma mismatches_zero a b :
  length b = length a → mismatches a b = 0%nat ↔ a = b.
Proof.
  revert b. induction a as [|x a IH]; intros [|y b] Hlen; try discriminate Hlen.
  - done.
  - injection Hlen as Hlen. rewrite mismatches_cons.
    destruct (Byte.eqb x y) eqn:Hxy.
    + apply Byte.byte_dec_bl in Hxy as ->. rewrite (IH b Hlen).
      split; [intros ->; reflexivity | intros [= ->]; reflexivity].
    + split; [discriminate|]. intros [= -> _].
      rewrite (Byte.byte_dec_lb eq_refl) in Hxy. discriminate.
Qed.

(** The loop, started in the middle of the buffers. *)
Lemma count_mismatch_spec pre (pre' : list Byte.byte) a b count :
  length pre' = length pre → length b = length a →
  count_mismatch (length pre) (length a) (pre ++ a) (pre' ++ b) count
  = (count + N.of_nat (mismatches a b))%N.
Proof.
  revert pre pre' b count.
  induction a as [|x a IH]; intros pre pre' [|y b] count Hpre Hlen;
    try discriminate Hlen.
  - cbn. unfold mismatches. cbn. lia.
  - injection Hlen as Hlen. cbn [length count_mismatch].
    rewrite nth_middle. rewrite <- Hpre at 2. rewrite nth_middle.
    replace (S (length pre)) with (length (pre ++ [x]))
      by (rewrite length_app; cbn; lia).
    replace (pre ++ x :: a) with ((pre ++ [x]) ++ a)
      by (rewrite <- app_assoc; reflexivity).
    replace (pre' ++ y :: b) with ((pre' ++ [y]) ++ b)
      by (rewrite <- app_assoc; reflexivity).
    rewrite IH by (rewrite ?length_app; cbn; lia).
    rewrite mismatches_cons. destruct (Byte.eqb x y); lia.
Qed.

(** X12.  The check passes exactly when there is an output buffer, the
    golden data could be read, and the two are equal byte for byte.  When
    it throws the mismatch error, the number in the message is the number
    of positions in which the two differ, at least 1 and at most the size
    of the buffer.  Without an output buffer (size 0, null [tbo]) the check
    never gets that far: it calls through the null pointer; and when the
    read throws, so does the check. *)
Theorem X12_verify_result (tbo golden : option (list Byte.byte)) :
  (∀ a b, tbo = Some a → golden = Some b → length b = length a) →
  (elf_verify_result tbo golden = VerifyPassed
   ↔ ∃ a, tbo = Some a ∧ golden = Some a)
  ∧ (∀ count, elf_verify_result tbo golden = VerifyThrows count →
       ∃ a b, tbo = Some a ∧ golden = Some b
              ∧ count = N.of_nat (mismatches a b)
              ∧ (1 ≤ count ≤ N.of_nat (length a))%N)
  ∧ (elf_verify_result tbo golden = VerifyNullDeref ↔ tbo = None)
  ∧ (elf_verify_result tbo golden = VerifyReadThrows
     ↔ (∃ a, tbo = Some a) ∧ golden = None).
Proof.
  intros Hlen. unfold elf_verify_result.
  destruct tbo as [a|].
  2:{ split_and!.
      - split; [discriminate | intros (a & Ha & _); discriminate].
      - discriminate.
      - done.
      - split; [discriminate | intros [(a & Ha) _]; discriminate]. }
  destruct golden as [b|].
  2:{ split_and!.
      - split; [discriminate | intros (a' & _ & Hb); discriminate].
      - discriminate.
      - split; discriminate.
      - split; [intros _; eauto | reflexivity]. }
  specialize (Hlen a b eq_refl eq_refl).
  pose proof (count_mismatch_spec [] [] a b 0%N eq_refl Hlen) as Hc.
  cbn [length app] in Hc. rewrite Hc, N.add_0_l.
  pose proof (mismatches_le a b) as Hle.
  pose proof (mismatches_zero a b Hlen) as Hz.
  destruct (N.of_nat (mismatches a b) =? 0)%N eqn:He.
  - apply N.eqb_eq in He. split_and!.
    + split; [intros _; exists a; split; [done|]; f_equal; symmetry; apply Hz; lia
             | reflexivity].
    + discriminate.
    + split; discriminate.
    + split; [discriminate | intros [_ Hb]; discriminate].
  - apply N.eqb_neq in He. split_and!.
    + split; [discriminate|]. intros (a' & [= <-] & [= Hab]).
      symmetry in Hab. apply Hz in Hab. lia.
    + intros count [= <-]. exists a, b. split_and!; try done; lia.
    + split; discriminate.
    + split; [discriminate | intros [_ Hb]; discriminate].
Qed.

Lemma X12_witness :
  elf_verify_result (Some [Byte.x01; Byte.x02; Byte.x03])
    (Some [Byte.x01; Byte.x02; Byte.x03]) = VerifyPassed
  ∧ elf_verify_result (Some [Byte.x01; Byte.x02; Byte.x03])
      (Some [Byte.x01; Byte.xff; Byte.x00]) = VerifyThrows 2
  ∧ elf_verify_result None (Some []) = VerifyNullDeref.
Proof.
  split; [|split].
  - apply (X12_verify_result (Some [Byte.x01; Byte.x02; Byte.x03])
             (Some [Byte.x01; Byte.x02; Byte.x03])).
    + intros a b [= <-] [= <-]. reflexivity.
    + eexists. split; reflexivity.
  - reflexivity.
  - apply (X12_verify_result None (Some [])); [discriminate | reflexivity].
Defined.

End VerifyResult.
